(** * My_Jet: booking rule, mileage ledger and token resolution

    A shallow embedding of [models.py], [crud.py], [auth.py] and the
    handlers of [main.py] that surface their results as HTTP errors.

    Modelling choices.
    - A MongoDB collection is the list of its documents in insertion
      order.  [find_one], [update_one] and [delete_one] act on the first
      document that matches the filter, [delete_many] on all of them,
      [insert_one] appends.  A filter is a boolean predicate on documents.
    - Every [async def] of [crud.py] is a computation in the state monad
      [Motor] over the two collections; [await] is monadic bind.  The
      Motor calls that the source does not await ([insert_one] in
      [create_user], [update_one] in [update_user_mileage]) are submitted
      at the call all the same, and are modelled as taking effect in
      program order.
    - [mileage] is a Python [int], modelled as [Z].
    - The clock ([datetime.utcnow()]) is an explicit argument, in whole
      seconds; [timedelta] values are seconds as well.
    - [jose.jwt], [passlib] and the [EmailStr] validation of pydantic are
      outside the repository: they are Section variables, constrained by
      the laws the code relies on.  The sign-up handler builds its
      [UserCreate] through that validation, so a duplicate e-mail is a
      duplicate of the normalised address. *)

From Stdlib Require Import String Ascii List ZArith Bool Lia.
From Stdlib Require Import DecimalString DecimalNat.
Import ListNotations.
Local Open Scope string_scope.
Local Open Scope Z_scope.

(** ** models.py *)

Record TicketCreate := mkTicketCreate {
  tc_starting_point : string;
  tc_ending_point : string;
  tc_departure_date : string;
  tc_jet_type : string
}.

Record TicketInDB := mkTicketInDB {
  starting_point : string;
  ending_point : string;
  departure_date : string;
  jet_type : string;
  owner_login_id : string
}.

Record UserCreate := mkUserCreate {
  uc_login_id : string;
  uc_email : string;
  uc_birth_date : string;
  uc_sex : string;
  uc_full_name : string;
  uc_password : string
}.

Record UserInDB := mkUserInDB {
  login_id : string;
  email : string;
  birth_date : string;
  sex : string;
  full_name : string;
  hashed_password : string;
  mileage : Z
}.

(** [mileage: int = 0]: the default of the field when the constructor is
    called without it, as [create_user] does. *)
Definition UserInDB_default_mileage : Z := 0.

(** The [$set] and [$inc] update operators on the [mileage] field. *)
Definition set_mileage (m : Z) (u : UserInDB) : UserInDB :=
  mkUserInDB (login_id u) (email u) (birth_date u) (sex u) (full_name u)
             (hashed_password u) m.

Definition inc_mileage (d : Z) (u : UserInDB) : UserInDB :=
  set_mileage (mileage u + d) u.

(** ** database.py: the two collections *)

Record Store := mkStore {
  user_collection : list UserInDB;
  ticket_collection : list TicketInDB
}.

Definition empty_store : Store := mkStore [] [].

Section Collection.
Context {D : Type}.

Definition find_one (q : D -> bool) (c : list D) : option D := find q c.

Definition find_all (q : D -> bool) (c : list D) : list D := filter q c.

Definition insert_one (d : D) (c : list D) : list D := c ++ [d].

Fixpoint update_one (q : D -> bool) (f : D -> D) (c : list D) : list D :=
  match c with
  | [] => []
  | d :: c' => if q d then f d :: c' else d :: update_one q f c'
  end.

Fixpoint delete_one (q : D -> bool) (c : list D) : list D :=
  match c with
  | [] => []
  | d :: c' => if q d then c' else d :: delete_one q c'
  end.

Definition delete_many (q : D -> bool) (c : list D) : list D :=
  filter (fun d => negb (q d)) c.
End Collection.

(** Filters used by the source. *)
Definition by_login_id (id : string) (u : UserInDB) : bool :=
  String.eqb (login_id u) id.

Definition by_email (e : string) (u : UserInDB) : bool :=
  String.eqb (email u) e.

Definition by_owner (id : string) (t : TicketInDB) : bool :=
  String.eqb (owner_login_id t) id.

Definition by_departure_date (d : string) (t : TicketInDB) : bool :=
  String.eqb (departure_date t) d.

Definition by_date_and_owner (d id : string) (t : TicketInDB) : bool :=
  String.eqb (departure_date t) d && String.eqb (owner_login_id t) id.

(** ** The state monad of database computations *)

Definition Motor (A : Type) : Type := Store -> A * Store.

Definition ret {A} (a : A) : Motor A := fun s => (a, s).

Definition bind {A B} (m : Motor A) (k : A -> Motor B) : Motor B :=
  fun s => let (a, s') := m s in k a s'.

Notation "x <- m ;; k" := (bind m (fun x => k))
  (at level 61, m at next level, right associativity).
Notation "m ;;; k" := (bind m (fun _ => k))
  (at level 61, right associativity).

Definition users_find_one (q : UserInDB -> bool) : Motor (option UserInDB) :=
  fun s => (find_one q (user_collection s), s).

Definition users_insert_one (u : UserInDB) : Motor unit :=
  fun s => (tt, mkStore (insert_one u (user_collection s)) (ticket_collection s)).

Definition users_update_one (q : UserInDB -> bool) (f : UserInDB -> UserInDB)
  : Motor unit :=
  fun s => (tt, mkStore (update_one q f (user_collection s)) (ticket_collection s)).

Definition users_delete_one (q : UserInDB -> bool) : Motor unit :=
  fun s => (tt, mkStore (delete_one q (user_collection s)) (ticket_collection s)).

Definition tickets_find_one (q : TicketInDB -> bool) : Motor (option TicketInDB) :=
  fun s => (find_one q (ticket_collection s), s).

Definition tickets_find (q : TicketInDB -> bool) : Motor (list TicketInDB) :=
  fun s => (find_all q (ticket_collection s), s).

Definition tickets_insert_one (t : TicketInDB) : Motor unit :=
  fun s => (tt, mkStore (user_collection s) (insert_one t (ticket_collection s))).

Definition tickets_delete_one (q : TicketInDB -> bool) : Motor unit :=
  fun s => (tt, mkStore (user_collection s) (delete_one q (ticket_collection s))).

Definition tickets_delete_many (q : TicketInDB -> bool) : Motor unit :=
  fun s => (tt, mkStore (user_collection s) (delete_many q (ticket_collection s))).

(** ** crud.py *)

Definition is_duplicate_login_id (user_login_id : string) : Motor bool :=
  duplicate <- users_find_one (by_login_id user_login_id) ;;
  match duplicate with
  | None => ret false
  | Some _ => ret true
  end.

Definition is_duplicate_email (user_email : string) : Motor bool :=
  duplicate <- users_find_one (by_email user_email) ;;
  match duplicate with
  | None => ret false
  | Some _ => ret true
  end.

Definition duplicate_login_id_msg : string := "duplicate login_id".
Definition duplicate_email_msg : string := "duplicate email".

Definition welcome_msg (new_user : UserCreate) : string :=
  "Welcome " ++ uc_full_name new_user ++ ". Your login id is <"
  ++ uc_login_id new_user ++ ">. Please login again.".

Section Crud.
(** [auth.get_hashed_password]: the bcrypt primitive of passlib. *)
Variable get_hashed_password : string -> string.

Definition create_user (new_user : UserCreate) : Motor string :=
  duplicate_login_id <- is_duplicate_login_id (uc_login_id new_user) ;;
  duplicate_email <- is_duplicate_email (uc_email new_user) ;;
  if duplicate_login_id then ret duplicate_login_id_msg
  else if duplicate_email then ret duplicate_email_msg
  else
    let hashed := get_hashed_password (uc_password new_user) in
    let store_user :=
      mkUserInDB (uc_login_id new_user) (uc_email new_user)
                 (uc_birth_date new_user) (uc_sex new_user)
                 (uc_full_name new_user) hashed UserInDB_default_mileage in
    users_insert_one store_user ;;;
    ret (welcome_msg new_user).
End Crud.

Definition delete_user (user : UserInDB) : Motor string :=
  users_delete_one (by_login_id (login_id user)) ;;;
  ret ("Your account with login id: <" ++ login_id user ++ "> has been deleted!").

(** The [for] loop of [ticket_is_valid] over [every_ticket]. *)
Fixpoint scan_tickets (ticket : TicketInDB) (every_ticket : list TicketInDB) : bool :=
  match every_ticket with
  | [] => true
  | t :: rest =>
      if String.eqb (departure_date t) (departure_date ticket)
         && String.eqb (owner_login_id t) (owner_login_id ticket)
      then false
      else scan_tickets ticket rest
  end.

Definition ticket_is_valid (ticket : TicketInDB) : Motor bool :=
  if String.eqb (starting_point ticket) (ending_point ticket) then ret false
  else
    every_ticket <- tickets_find (fun _ => true) ;;
    ret (scan_tickets ticket every_ticket).

Definition update_user_mileage (user : UserInDB) : Motor string :=
  users_update_one (by_login_id (login_id user)) (inc_mileage 100) ;;;
  ret "You got 100 mileages!".

(** The [TicketInDB] built from the fields of [new_ticket] and the
    [login_id] of [user] as [owner_login_id]. *)
Definition to_TicketInDB (new_ticket : TicketCreate) (owner : string) : TicketInDB :=
  mkTicketInDB (tc_starting_point new_ticket) (tc_ending_point new_ticket)
               (tc_departure_date new_ticket) (tc_jet_type new_ticket) owner.

Definition create_ticket (user : UserInDB) (new_ticket : TicketCreate)
  : Motor (option string) :=
  let store_ticket := to_TicketInDB new_ticket (login_id user) in
  is_valid <- ticket_is_valid store_ticket ;;
  if negb is_valid then ret None
  else
    tickets_insert_one store_ticket ;;;
    received_mileage <- update_user_mileage user ;;
    ret (Some ("new ticket has added!" ++ received_mileage)).

(** [read_every_ticket]: the owner's tickets, keyed "Ticket 1", "Ticket 2", ...
    in the source; the keys follow the order of the list returned here. *)
Definition read_every_ticket (user : UserInDB) : Motor (list TicketInDB) :=
  tickets_find (by_owner (login_id user)).

Definition cancel_every_ticket (user : UserInDB) : Motor string :=
  tickets_delete_many (by_owner (login_id user)) ;;;
  users_update_one (by_login_id (login_id user)) (set_mileage 0) ;;;
  ret "Your tickets are all deleted.".

Definition cancel_ticket_by_departure_date (cancel_date : string) (user : UserInDB)
  : Motor (option string) :=
  check_ticket <- tickets_find_one (by_departure_date cancel_date) ;;
  match check_ticket with
  | None => ret None
  | Some _ =>
      tickets_delete_one (by_date_and_owner cancel_date (login_id user)) ;;;
      users_update_one (by_login_id (login_id user)) (inc_mileage (-100)) ;;;
      ret (Some ("Your flight on " ++ cancel_date ++ " has been deleted."))
  end.

(** ** auth.py *)

Definition SECRET_KEY : string :=
  "a909dbfad5cc941fc277e3ec56efd63aadafed50197baab4a35ab4a4a4914a51".

Definition ALGORITHM : string := "HS256".

Definition ACCESS_TOKEN_EXPIRE_MINUTES : Z := 10.

(** [timedelta(minutes=m)], in seconds. *)
Definition minutes (m : Z) : Z := 60 * m.

(** The payload of a token: the two claims the code reads and writes. *)
Record Claims := mkClaims {
  sub : option string;
  exp : option Z
}.

(** What a call of [jwt.decode] can raise.  In [jose.exceptions] both
    [ExpiredSignatureError] and [JWTClaimsError] derive from [JWTError];
    [JWKError] derives from [JOSEError] beside [JWTError], not from it
    (the key construction raises it for an algorithm it does not know),
    and [TypeError] stands for the built-in exceptions that the library
    lets through on a malformed token. *)
Inductive JoseError :=
| JWTError
| JWTClaimsError
| ExpiredSignatureError
| JWKError
| TypeError.

(** [isinstance(e, JWTError)]: what [except JWTError] catches. *)
Definition isinstance_JWTError (e : JoseError) : bool :=
  match e with
  | JWTError => true
  | JWTClaimsError => true
  | ExpiredSignatureError => true
  | JWKError => false
  | TypeError => false
  end.

Record HTTPException := mkHTTPException {
  status_code : Z;
  detail : string;
  headers : list (string * string)
}.

(** The [ValidationError] of pydantic: the field that failed and the value
    that was given for it. *)
Record ValidationError := mkValidationError {
  loc : string;
  input : string
}.

(** An exception leaving a function: an [HTTPException] raised by the code,
    an exception of the token library that no [except] clause caught, or
    the [ValidationError] of a model that could not be built. *)
Inductive Raised :=
| Http (e : HTTPException)
| Jose (e : JoseError)
| Pydantic (e : ValidationError).

Definition HTTP_401_UNAUTHORIZED : Z := 401.
Definition HTTP_404_NOT_FOUND : Z := 404.
Definition HTTP_409_CONFLICT : Z := 409.
Definition HTTP_302_FOUND : Z := 302.

Definition credential_exception : HTTPException :=
  mkHTTPException HTTP_401_UNAUTHORIZED "couldn't validate credentials"
                  [("WWW-Authenticate", "Bearer")].

(** [s.startswith(old)]. *)
Fixpoint startswith (s old : string) {struct old} : bool :=
  match old, s with
  | EmptyString, _ => true
  | String _ _, EmptyString => false
  | String a old', String b s' => Ascii.eqb a b && startswith s' old'
  end.

(** [str.replace(old, new)] for a non-empty [old]: occurrences are replaced
    from left to right and do not overlap.  [skip] counts the characters of
    a matched occurrence that are still to be dropped. *)
Fixpoint replace_from (old new : string) (skip : nat) (s : string) : string :=
  match s with
  | EmptyString => EmptyString
  | String c s' =>
      match skip with
      | S k => replace_from old new k s'
      | O =>
          if startswith s old
          then new ++ replace_from old new (Nat.pred (String.length old)) s'
          else String c (replace_from old new O s')
      end
  end.

Definition replace (old new s : string) : string := replace_from old new O s.

Definition get_user_by_login_id (user_login_id : string) : Motor (option UserInDB) :=
  searched_user <- users_find_one (by_login_id user_login_id) ;;
  match searched_user with
  | None => ret None
  | Some u => ret (Some u)
  end.

Section Auth.
(** [jwt.encode claims key algorithm] and
    [jwt.decode token key algorithms] at clock reading [now]. *)
Variable jwt_encode : Claims -> string -> string -> string.
Variable jwt_decode : string -> string -> string -> Z -> JoseError + Claims.
(** [pwd_context.verify]. *)
Variable check_password : string -> string -> bool.

Definition authenticate_user (user_login_id user_password : string)
  : Motor (option UserInDB) :=
  user <- get_user_by_login_id user_login_id ;;
  match user with
  | None => ret None
  | Some u =>
      if negb (check_password user_password (hashed_password u)) then ret None
      else ret (Some u)
  end.

(** [if expires_delta:] is false for [None] and for a zero [timedelta]. *)
Definition create_access_token (data : Claims) (expires_delta : option Z)
           (now : Z) : string :=
  let expire :=
    match expires_delta with
    | Some d => if d =? 0 then now + minutes 15 else now + d
    | None => now + minutes 15
    end in
  let encode_data := mkClaims (sub data) (Some expire) in
  jwt_encode encode_data SECRET_KEY ALGORITHM.

Definition get_current_user_by_token (token : string) (now : Z)
  : Motor (Raised + UserInDB) :=
  match jwt_decode (replace "Bearer " "" token) SECRET_KEY ALGORITHM now with
  | inl e =>
      if isinstance_JWTError e then ret (inl (Http credential_exception))
      else ret (inl (Jose e))
  | inr payload =>
      match sub payload with
      | None => ret (inl (Http credential_exception))
      | Some token_login_id =>
          user <- get_user_by_login_id token_login_id ;;
          match user with
          | None => ret (inl (Http credential_exception))
          | Some u => ret (inr u)
          end
      end
  end.

(** ** main.py: the handlers that surface the results above *)

Inductive Response :=
| RedirectResponse (url : string) (status : Z)
| TokenResponse (access_token token_type : string).

Definition login_for_access_token (username password : string) (now : Z)
  : Motor (Raised + Response) :=
  user <- authenticate_user username password ;;
  match user with
  | None =>
      ret (inl (Http (mkHTTPException HTTP_401_UNAUTHORIZED
                        "Incorrect Login ID or Password." [])))
  | Some u =>
      let access_token_expires := minutes ACCESS_TOKEN_EXPIRE_MINUTES in
      let access_token :=
        create_access_token (mkClaims (Some (login_id u)) None)
                            (Some access_token_expires) now in
      ret (inr (TokenResponse access_token "bearer"))
  end.

Definition create_one_ticket (new_ticket_create : TicketCreate)
           (access_token : string) (now : Z) : Motor (Raised + Response) :=
  current_user <- get_current_user_by_token access_token now ;;
  match current_user with
  | inl e => ret (inl e)
  | inr user =>
      new_ticket_message <- create_ticket user new_ticket_create ;;
      match new_ticket_message with
      | None =>
          ret (inl (Http (mkHTTPException HTTP_409_CONFLICT
            ("Invalid Ticket Information: Check your flight schedule on "
             ++ tc_departure_date new_ticket_create
             ++ " (You can't book two flights per day)."
             ++ "Check the starting and ending points (They should be different).")
            [])))
      | Some _ => ret (inr (RedirectResponse "/private" HTTP_302_FOUND))
      end
  end.

Definition cancel_one_ticket (cancel_date : string) (current_user : UserInDB)
  : Motor (option string) :=
  cancel_ticket_by_departure_date cancel_date current_user.

Definition cancel_one_ticket_post_confirm (cancel_date access_token : string)
           (now : Z) : Motor (Raised + Response) :=
  r <- get_current_user_by_token access_token now ;;
  match r with
  | inl e => ret (inl e)
  | inr user =>
      is_gone <- cancel_one_ticket cancel_date user ;;
      match is_gone with
      | None =>
          ret (inl (Http (mkHTTPException HTTP_404_NOT_FOUND
                 ("You don't have a flight on " ++ cancel_date) [])))
      | Some _ => ret (inr (RedirectResponse "/private" HTTP_302_FOUND))
      end
  end.

Definition cancel_all_tickets_post_confirm (access_token : string) (now : Z)
  : Motor (Raised + Response) :=
  r <- get_current_user_by_token access_token now ;;
  match r with
  | inl e => ret (inl e)
  | inr user =>
      cancel_every_ticket user ;;;
      ret (inr (RedirectResponse "/private" HTTP_302_FOUND))
  end.
End Auth.

Definition delete_one_user (current_user : UserInDB) : Motor string :=
  m1 <- cancel_every_ticket current_user ;;
  m2 <- delete_user current_user ;;
  ret (m1 ++ " " ++ m2).

(** The six fields that [create_one_user] reads from [request.form()].
    A form that lacks one of them raises [KeyError] before anything below
    and is not a value of this type. *)
Record SignUpForm := mkSignUpForm {
  form_login_id : string;
  form_email : string;
  form_birth_date : string;
  form_sex : string;
  form_full_name : string;
  form_password : string
}.

Section Registration.
(** The validation of an [EmailStr] field: [None] when pydantic raises its
    [ValidationError], otherwise the normalised address that the model
    holds in place of the one given (the domain in lower case).  The five
    [str] fields take a string as it is. *)
Variable validate_email : string -> option string.
Variable get_hashed_password : string -> string.

(** [UserCreate(login_id=form_data["login_id"], email=form_data["email"], ...)]. *)
Definition UserCreate_of_form (form_data : SignUpForm)
  : ValidationError + UserCreate :=
  match validate_email (form_email form_data) with
  | None => inl (mkValidationError "email" (form_email form_data))
  | Some normalised =>
      inr (mkUserCreate (form_login_id form_data) normalised
                        (form_birth_date form_data) (form_sex form_data)
                        (form_full_name form_data) (form_password form_data))
  end.

Definition create_one_user (form_data : SignUpForm)
  : Motor (Raised + Response) :=
  match UserCreate_of_form form_data with
  | inl e => ret (inl (Pydantic e))
  | inr new_user_create =>
      new_user_message <- create_user get_hashed_password new_user_create ;;
      if String.eqb new_user_message duplicate_login_id_msg then
        ret (inl (Http (mkHTTPException HTTP_409_CONFLICT
          ("Login ID: " ++ uc_login_id new_user_create
           ++ " is already registered. Please use a different Login ID.") [])))
      else if String.eqb new_user_message duplicate_email_msg then
        ret (inl (Http (mkHTTPException HTTP_409_CONFLICT
          ("Email: " ++ uc_email new_user_create
           ++ " is already registered. Please use a different email.") [])))
      else ret (inr (RedirectResponse "/index" HTTP_302_FOUND))
  end.
End Registration.

(** ** Requests after token resolution

    An authenticated request names its caller by the [sub] of the token;
    [get_current_user_by_token] turns it into the stored user, or into a
    401 when no such user is stored.  A registration carries the
    [UserCreate] that the handler built, its e-mail validated and
    normalised already.  [run_request] is the effect of one request on
    the store, [run_requests] that of a sequence. *)

Inductive Request :=
| Register (new_user : UserCreate)
| Book (caller : string) (new_ticket : TicketCreate)
| CancelOne (caller : string) (cancel_date : string)
| CancelAll (caller : string)
| DeleteAccount (caller : string).

Definition as_user {A} (caller : string) (k : UserInDB -> Motor A) : Motor unit :=
  user <- get_user_by_login_id caller ;;
  match user with
  | None => ret tt
  | Some u => k u ;;; ret tt
  end.

Definition run_request (get_hashed_password : string -> string) (r : Request)
  : Motor unit :=
  match r with
  | Register new_user => create_user get_hashed_password new_user ;;; ret tt
  | Book caller new_ticket => as_user caller (fun u => create_ticket u new_ticket)
  | CancelOne caller cancel_date =>
      as_user caller (fun u => cancel_ticket_by_departure_date cancel_date u)
  | CancelAll caller => as_user caller cancel_every_ticket
  | DeleteAccount caller => as_user caller delete_one_user
  end.

Fixpoint run_requests (get_hashed_password : string -> string)
         (rs : list Request) (s : Store) : Store :=
  match rs with
  | [] => s
  | r :: rs' =>
      run_requests get_hashed_password rs'
                   (snd (run_request get_hashed_password r s))
  end.

Definition mileage_nonneg (s : Store) : Prop :=
  forall u, In u (user_collection s) -> 0 <= mileage u.

(** ** The claims of a token and their validation

    [jwt.decode] checks [exp] after the signature: the token is expired
    when [exp] is strictly before the clock reading. *)
Definition validate_claims (c : Claims) (now : Z) : JoseError + Claims :=
  match exp c with
  | Some e => if e <? now then inl ExpiredSignatureError else inr c
  | None => inr c
  end.

Fixpoint contains_char (c : ascii) (s : string) : bool :=
  match s with
  | EmptyString => false
  | String c' s' => Ascii.eqb c' c || contains_char c s'
  end.

(** ** A concrete token codec

    An instance of the two library functions over printable tokens: three
    dot-separated parts, none of which holds a dot or a space.  It stands
    in for the library wherever a statement has to be run. *)
Module ToyJose.

Definition bit (b : bool) : ascii := if b then "1"%char else "0"%char.

Definition unbit (c : ascii) : bool := Ascii.eqb c "1"%char.

Fixpoint bits (s : string) : string :=
  match s with
  | EmptyString => EmptyString
  | String (Ascii b0 b1 b2 b3 b4 b5 b6 b7) s' =>
      String (bit b0) (String (bit b1) (String (bit b2) (String (bit b3)
      (String (bit b4) (String (bit b5) (String (bit b6) (String (bit b7)
      (bits s'))))))))
  end.

Fixpoint unbits (s : string) : string :=
  match s with
  | String c0 (String c1 (String c2 (String c3
    (String c4 (String c5 (String c6 (String c7 s'))))))) =>
      String (Ascii (unbit c0) (unbit c1) (unbit c2) (unbit c3)
                    (unbit c4) (unbit c5) (unbit c6) (unbit c7))
             (unbits s')
  | _ => EmptyString
  end.

Fixpoint ones (n : nat) : string :=
  match n with
  | O => EmptyString
  | S k => String "1"%char (ones k)
  end.

Definition enc_exp (e : option Z) : string :=
  match e with
  | None => "N"
  | Some z => (if z <? 0 then "-" else "+") ++ ones (Z.abs_nat z)
  end.

Definition dec_exp (s : string) : option (option Z) :=
  match s with
  | EmptyString => None
  | String c r =>
      if Ascii.eqb c "N"%char then Some None
      else if Ascii.eqb c "+"%char then Some (Some (Z.of_nat (String.length r)))
      else if Ascii.eqb c "-"%char then Some (Some (- Z.of_nat (String.length r)))
      else None
  end.

Definition enc_sub (s : option string) : string :=
  match s with
  | None => "N"
  | Some x => String "S"%char (bits x)
  end.

Definition dec_sub (s : string) : option (option string) :=
  match s with
  | EmptyString => None
  | String c r =>
      if Ascii.eqb c "N"%char then Some None
      else if Ascii.eqb c "S"%char then Some (Some (unbits r))
      else None
  end.

Fixpoint split_dot (s : string) : option (string * string) :=
  match s with
  | EmptyString => None
  | String c s' =>
      if Ascii.eqb c "."%char then Some (EmptyString, s')
      else match split_dot s' with
           | Some (a, b) => Some (String c a, b)
           | None => None
           end
  end.

Definition encode (c : Claims) (key algorithm : string) : string :=
  bits key ++ "." ++ enc_exp (exp c) ++ "." ++ enc_sub (sub c).

Definition decode (token key algorithms : string) (now : Z)
  : JoseError + Claims :=
  match split_dot token with
  | None => inl JWTError
  | Some (signature, rest) =>
      if negb (String.eqb signature (bits key)) then inl JWTError
      else match split_dot rest with
           | None => inl JWTError
           | Some (e, s) =>
               match dec_exp e, dec_sub s with
               | Some oe, Some os => validate_claims (mkClaims os oe) now
               | _, _ => inl JWTError
               end
           end
  end.

Definition hash (password : string) : string := "$2b$" ++ password.

Definition verify (password hashed : string) : bool :=
  String.eqb (hash password) hashed.

End ToyJose.

(** ** A concrete e-mail validation

    An instance of the [EmailStr] validation: an address needs a local
    part, an [@] and a domain, and its domain is put in lower case. *)
Module ToyEmail.

Definition lower (c : ascii) : ascii :=
  let n := nat_of_ascii c in
  if (Nat.leb 65 n && Nat.leb n 90)%bool then ascii_of_nat (n + 32) else c.

Fixpoint lower_all (s : string) : string :=
  match s with
  | EmptyString => EmptyString
  | String c s' => String (lower c) (lower_all s')
  end.

(** The address from its [@] on, once a local part has been read. *)
Fixpoint domain_from (s : string) : option string :=
  match s with
  | EmptyString => None
  | String c s' =>
      if Ascii.eqb c "@"%char then
        match s' with
        | EmptyString => None
        | String _ _ => Some (String c (lower_all s'))
        end
      else option_map (String c) (domain_from s')
  end.

Definition validate (address : string) : option string :=
  match address with
  | EmptyString => None
  | String c s' =>
      if Ascii.eqb c "@"%char then None
      else option_map (String c) (domain_from s')
  end.

End ToyEmail.

(** ** A two-user scenario *)
Module Scenario.
Definition alice_form : UserCreate :=
  mkUserCreate "alice" "a@x.com" "19900101" "female" "Alice A" "pw".
Definition bob_form : UserCreate :=
  mkUserCreate "bob" "b@x.com" "19910202" "male" "Bob B" "pw2".

Definition alice : UserInDB :=
  mkUserInDB "alice" "a@x.com" "19900101" "female" "Alice A"
             (ToyJose.hash "pw") 0.
Definition bob : UserInDB :=
  mkUserInDB "bob" "b@x.com" "19910202" "male" "Bob B"
             (ToyJose.hash "pw2") 100.

Definition sea_lax : TicketCreate :=
  mkTicketCreate "SEA" "LAX" "2024-06-01" "G650".

Definition bob_ticket : TicketInDB := to_TicketInDB sea_lax "bob".

(** Both registered; bob holds a ticket on 2024-06-01, alice holds none. *)
Definition store : Store := mkStore [alice; bob] [bob_ticket].

Definition requests : list Request :=
  [Register alice_form; Register bob_form; Book "bob" sea_lax;
   CancelOne "alice" "2024-06-01"].

(** Sign-up forms: carol under bob's address in another case, and two
    forms of a new user, one with an address that does not validate. *)
Definition carol_form_bob_email : SignUpForm :=
  mkSignUpForm "carol" "b@X.COM" "20000101" "female" "Carol C" "pw3".
Definition carol_form : SignUpForm :=
  mkSignUpForm "carol" "Carol@X.com" "20000101" "female" "Carol C" "pw3".
Definition carol_form_no_at : SignUpForm :=
  mkSignUpForm "carol" "carol.x.com" "20000101" "female" "Carol C" "pw3".
Definition alice_form_again : SignUpForm :=
  mkSignUpForm "alice" "other@x.com" "20000101" "female" "A2" "x".

(** The token of alice's login at clock reading 0, valid for ten minutes. *)
Definition alice_token : string :=
  create_access_token ToyJose.encode (mkClaims (Some "alice") None)
                      (Some (minutes ACCESS_TOKEN_EXPIRE_MINUTES)) 0.
End Scenario.

(** ** Predicates of the statements *)

(** The six fields of a user record other than [mileage]. *)
Definition same_profile (u u' : UserInDB) : Prop :=
  login_id u' = login_id u /\ email u' = email u /\
  birth_date u' = birth_date u /\ sex u' = sex u /\
  full_name u' = full_name u /\ hashed_password u' = hashed_password u.

Definition clashes (ticket t : TicketInDB) : Prop :=
  departure_date t = departure_date ticket /\
  owner_login_id t = owner_login_id ticket.

Definition stored_user (get_hashed_password : string -> string)
           (new_user : UserCreate) : UserInDB :=
  mkUserInDB (uc_login_id new_user) (uc_email new_user)
             (uc_birth_date new_user) (uc_sex new_user)
             (uc_full_name new_user)
             (get_hashed_password (uc_password new_user)) 0.

Definition login_id_taken (id : string) (s : Store) : Prop :=
  exists u, In u (user_collection s) /\ login_id u = id.

Definition email_taken (e : string) (s : Store) : Prop :=
  exists u, In u (user_collection s) /\ email u = e.

Definition owns_ticket_on (id cancel_date : string) (s : Store) : Prop :=
  exists t, In t (ticket_collection s) /\
            departure_date t = cancel_date /\ owner_login_id t = id.

(** The absolute expiry that [create_access_token] writes into the token. *)
Definition expiry (expires_delta : option Z) (issued : Z) : Z :=
  match expires_delta with
  | Some d => if d =? 0 then issued + 900 else issued + d
  | None => issued + 900
  end.

(** ** main.py: the remaining handlers *)

(** [str(index)] for the positions the code counts from 1. *)
Definition str (n : nat) : string := NilEmpty.string_of_uint (Nat.to_uint n).

(** A Python [dict] keyed by strings, in insertion order; [d[k] = v]
    overwrites the value of a key that is present and appends otherwise. *)
Fixpoint dict_set {V} (k : string) (v : V) (d : list (string * V))
  : list (string * V) :=
  match d with
  | [] => [(k, v)]
  | (k', v') :: d' =>
      if String.eqb k' k then (k, v) :: d' else (k', v') :: dict_set k v d'
  end.

Fixpoint dict_get {V} (k : string) (d : list (string * V)) : option V :=
  match d with
  | [] => None
  | (k', v') :: d' => if String.eqb k' k then Some v' else dict_get k d'
  end.

(** The loop of [read_every_ticket]: [index] and [ticket_dict] are its two
    variables. *)
Fixpoint number_tickets (tickets : list TicketInDB) (index : nat)
         (ticket_dict : list (string * TicketInDB)) : list (string * TicketInDB) :=
  match tickets with
  | [] => ticket_dict
  | ticket :: rest =>
      let key := "Ticket " ++ str index in
      number_tickets rest (S index) (dict_set key ticket ticket_dict)
  end.

(** [read_every_ticket] with the dictionary it returns. *)
Definition read_every_ticket_dict (user : UserInDB)
  : Motor (list (string * TicketInDB)) :=
  tickets <- read_every_ticket user ;;
  ret (number_tickets tickets 1 []).

(** What [read_all_tickets] answers: the message, or the numbered tickets. *)
Inductive TicketsView :=
| Message (message : string)
| Tickets (my_tickets : list (string * TicketInDB)).

Definition read_all_tickets (current_user : UserInDB) : Motor TicketsView :=
  my_tickets <- read_every_ticket_dict current_user ;;
  match my_tickets with
  | [] => ret (Message "You don't have any tickets!")
  | _ :: _ => ret (Tickets my_tickets)
  end.

(** What a handler does to the [access_token] cookie of the response. *)
Inductive CookieAction :=
| SetCookie (key value : string) (httponly : bool)
| DeleteCookie (key : string).

Record IndexPage := mkIndexPage {
  user_status : string;
  need_to_login : bool
}.

Section Handlers.
Variable jwt_encode : Claims -> string -> string -> string.
Variable jwt_decode : string -> string -> string -> Z -> JoseError + Claims.
Variable check_password : string -> string -> bool.

(** [index]: the clock is read once by the handler's own [jwt.decode]
    ([now1]) and once more inside [get_current_user_by_token] ([now2]).
    The [except] clause names [ExpiredSignatureError] alone. *)
Definition index (access_token : option string) (now1 now2 : Z)
  : Motor (Raised + IndexPage) :=
  match access_token with
  | None => ret (inr (mkIndexPage "Sign up or Login!" true))
  | Some cookie =>
      let current_token := replace "Bearer " "" cookie in
      let expired :=
        mkIndexPage "Your token has expired. Login again!" true in
      match jwt_decode current_token SECRET_KEY ALGORITHM now1 with
      | inl ExpiredSignatureError => ret (inr expired)
      | inl e => ret (inl (Jose e))
      | inr _ =>
          r <- get_current_user_by_token jwt_decode current_token now2 ;;
          match r with
          | inl (Jose ExpiredSignatureError) => ret (inr expired)
          | inl e => ret (inl e)
          | inr current_user =>
              ret (inr (mkIndexPage ("Hello, " ++ login_id current_user ++ ".")
                                    false))
          end
      end
  end.

(** [login_result]: [login_for_access_token] answers with a token object
    or raises; the branch for a redirect is there for the type alone. *)
Definition login_result (form_login_id form_password : string) (now : Z)
  : Motor (Raised + Response * CookieAction) :=
  token_obj <- login_for_access_token jwt_encode check_password
                 form_login_id form_password now ;;
  match token_obj with
  | inl e => ret (inl e)
  | inr (TokenResponse access_token _) =>
      ret (inr (RedirectResponse "/index" HTTP_302_FOUND,
                SetCookie "access_token" ("Bearer " ++ access_token) true))
  | inr (RedirectResponse url status) =>
      ret (inr (RedirectResponse url status, DeleteCookie "access_token"))
  end.

Definition delete_one_user_post (access_token : string) (now : Z)
  : Motor (Raised + Response * CookieAction) :=
  r <- get_current_user_by_token jwt_decode access_token now ;;
  match r with
  | inl e => ret (inl e)
  | inr user =>
      delete_one_user user ;;;
      ret (inr (RedirectResponse "/index" HTTP_302_FOUND,
                DeleteCookie "access_token"))
  end.
End Handlers.

(** ** Invariants of the store *)

Definition users_unique (s : Store) : Prop :=
  NoDup (map login_id (user_collection s)) /\
  NoDup (map email (user_collection s)).

Definition ticket_key (t : TicketInDB) : string * string :=
  (owner_login_id t, departure_date t).

Definition tickets_wf (s : Store) : Prop :=
  (forall t, In t (ticket_collection s) ->
             starting_point t <> ending_point t) /\
  NoDup (map ticket_key (ticket_collection s)).

Definition no_orphans (s : Store) : Prop :=
  forall t, In t (ticket_collection s) ->
            In (owner_login_id t) (map login_id (user_collection s)).

Definition tickets_held (id : string) (s : Store) : nat :=
  List.length (find_all (by_owner id) (ticket_collection s)).

Definition ledger_ok (s : Store) : Prop :=
  forall u, In u (user_collection s) ->
            mileage u = 100 * Z.of_nat (tickets_held (login_id u) s).

(** A cancel-one names a date on which its caller holds a ticket. *)
Definition owned_cancel (r : Request) (s : Store) : Prop :=
  match r with
  | CancelOne caller cancel_date => owns_ticket_on caller cancel_date s
  | _ => True
  end.

(** Every cancel-one of the sequence is an [owned_cancel] in the store it
    meets. *)
Fixpoint owned_cancels (get_hashed_password : string -> string)
         (rs : list Request) (s : Store) : Prop :=
  match rs with
  | [] => True
  | r :: rs' =>
      owned_cancel r s /\
      owned_cancels get_hashed_password rs'
                    (snd (run_request get_hashed_password r s))
  end.

(** The records and tickets that do not belong to [id]. *)
Definition other_users (id : string) (s : Store) : list UserInDB :=
  find_all (fun u => negb (by_login_id id u)) (user_collection s).

Definition other_tickets (id : string) (s : Store) : list TicketInDB :=
  find_all (fun t => negb (by_owner id t)) (ticket_collection s).

(** The key under which [read_every_ticket] files its [i]-th ticket. *)
Definition ticket_key_of (i : nat) : string := "Ticket " ++ str i.

(** * Properties *)

(** ** Collections *)

Section CollectionFacts.
Context {D : Type}.
Implicit Types (q : D -> bool) (f : D -> D) (c : list D).

Lemma find_one_none q c :
  find_one q c = None <-> forall d, In d c -> q d = false.
Proof.
  unfold find_one. split.
  - intros H d Hd. exact (find_none q c H d Hd).
  - induction c as [|d c IH]; intros H; simpl; [reflexivity|].
    rewrite (H d (or_introl eq_refl)). apply IH.
    intros d' Hd'. apply H. now right.
Qed.

Lemma find_one_some q c d :
  find_one q c = Some d -> In d c /\ q d = true.
Proof. unfold find_one. apply find_some. Qed.

Lemma find_one_exists q c :
  (exists d, In d c /\ q d = true) -> exists d, find_one q c = Some d.
Proof.
  intros [d [Hin Hq]]. destruct (find_one q c) as [d'|] eqn:E.
  - now exists d'.
  - rewrite find_one_none in E. rewrite (E d Hin) in Hq. discriminate.
Qed.

Lemma find_one_update_one q f c :
  (forall d, q (f d) = q d) ->
  find_one q (update_one q f c) = option_map f (find_one q c).
Proof.
  intros Hf. unfold find_one.
  induction c as [|d c IH]; simpl; [reflexivity|].
  destruct (q d) eqn:E; simpl.
  - now rewrite Hf, E.
  - now rewrite E.
Qed.

Lemma find_one_update_one_other q q' f c :
  (forall d, q' (f d) = q' d) ->
  (forall d, q d = true -> q' d = false) ->
  find_one q' (update_one q f c) = find_one q' c.
Proof.
  intros Hf Hdisj. unfold find_one.
  induction c as [|d c IH]; simpl; [reflexivity|].
  destruct (q d) eqn:E; simpl.
  - now rewrite Hf, (Hdisj d E).
  - now rewrite IH.
Qed.

Lemma delete_one_no_match q c :
  (forall d, In d c -> q d = false) -> delete_one q c = c.
Proof.
  induction c as [|d c IH]; intros H; simpl; [reflexivity|].
  rewrite (H d (or_introl eq_refl)). f_equal. apply IH.
  intros d' Hd'. apply H. now right.
Qed.

Lemma update_one_no_match q f c :
  (forall d, In d c -> q d = false) -> update_one q f c = c.
Proof.
  induction c as [|d c IH]; intros H; simpl; [reflexivity|].
  rewrite (H d (or_introl eq_refl)). f_equal. apply IH.
  intros d' Hd'. apply H. now right.
Qed.

Lemma update_one_length q f c : length (update_one q f c) = length c.
Proof.
  induction c as [|d c IH]; simpl; [reflexivity|].
  destruct (q d); simpl; congruence.
Qed.
End CollectionFacts.

Lemma by_login_id_set_mileage id m u :
  by_login_id id (set_mileage m u) = by_login_id id u.
Proof. reflexivity. Qed.

Lemma by_login_id_inc_mileage id d u :
  by_login_id id (inc_mileage d u) = by_login_id id u.
Proof. reflexivity. Qed.

Lemma by_login_id_disjoint id id' :
  id <> id' -> forall u, by_login_id id u = true -> by_login_id id' u = false.
Proof.
  unfold by_login_id. intros Hne u H.
  apply String.eqb_eq in H. apply String.eqb_neq. congruence.
Qed.

Lemma same_profile_set_mileage m u : same_profile u (set_mileage m u).
Proof. unfold same_profile. simpl. tauto. Qed.

(** ** The booking validator *)

Lemma scan_tickets_false ticket every_ticket :
  scan_tickets ticket every_ticket = false <->
  exists t, In t every_ticket /\ clashes ticket t.
Proof.
  unfold clashes. induction every_ticket as [|t rest IH]; simpl.
  - split; [discriminate | intros [t [[] _]]].
  - destruct (String.eqb (departure_date t) (departure_date ticket)) eqn:Ed;
    destruct (String.eqb (owner_login_id t) (owner_login_id ticket)) eqn:Eo;
    simpl.
    + apply String.eqb_eq in Ed, Eo. split; [|reflexivity].
      intros _. exists t. auto.
    + rewrite IH. apply String.eqb_neq in Eo.
      split; intros [t' [Hin Hc]].
      * exists t'. auto.
      * destruct Hin as [<-|Hin]; [tauto | exists t'; auto].
    + rewrite IH. apply String.eqb_neq in Ed.
      split; intros [t' [Hin Hc]].
      * exists t'. auto.
      * destruct Hin as [<-|Hin]; [tauto | exists t'; auto].
    + rewrite IH. apply String.eqb_neq in Ed.
      split; intros [t' [Hin Hc]].
      * exists t'. auto.
      * destruct Hin as [<-|Hin]; [tauto | exists t'; auto].
Qed.

Lemma scan_tickets_true ticket every_ticket :
  scan_tickets ticket every_ticket = true <->
  forall t, In t every_ticket -> ~ clashes ticket t.
Proof.
  split.
  - intros H t Hin Hc.
    assert (scan_tickets ticket every_ticket = false)
      by (apply scan_tickets_false; eauto).
    congruence.
  - intros H. destruct (scan_tickets ticket every_ticket) eqn:E; [reflexivity|].
    apply scan_tickets_false in E. destruct E as [t [Hin Hc]].
    now destruct (H t Hin).
Qed.

Lemma find_all_true {D} (c : list D) : find_all (fun _ => true) c = c.
Proof.
  unfold find_all. induction c as [|d c IH]; simpl; congruence.
Qed.

Lemma ticket_is_valid_unfold ticket s :
  ticket_is_valid ticket s =
  (if String.eqb (starting_point ticket) (ending_point ticket) then false
   else scan_tickets ticket (ticket_collection s), s).
Proof.
  unfold ticket_is_valid.
  destruct (String.eqb (starting_point ticket) (ending_point ticket));
    [reflexivity|].
  unfold bind, tickets_find, ret. now rewrite find_all_true.
Qed.

Lemma create_ticket_unfold user new_ticket s :
  create_ticket user new_ticket s =
  let store_ticket := to_TicketInDB new_ticket (login_id user) in
  if fst (ticket_is_valid store_ticket s)
  then (Some ("new ticket has added!" ++ "You got 100 mileages!"),
        mkStore (update_one (by_login_id (login_id user)) (inc_mileage 100)
                            (user_collection s))
                (ticket_collection s ++ [store_ticket]))
  else (None, s).
Proof.
  unfold create_ticket, bind. rewrite ticket_is_valid_unfold. simpl.
  destruct (String.eqb (tc_starting_point new_ticket) (tc_ending_point new_ticket));
    [reflexivity|].
  destruct (scan_tickets _ _); reflexivity.
Qed.

Lemma cancel_ticket_by_departure_date_unfold cancel_date user s :
  cancel_ticket_by_departure_date cancel_date user s =
  match find_one (by_departure_date cancel_date) (ticket_collection s) with
  | None => (None, s)
  | Some _ =>
      (Some ("Your flight on " ++ cancel_date ++ " has been deleted."),
       mkStore (update_one (by_login_id (login_id user)) (inc_mileage (-100))
                           (user_collection s))
               (delete_one (by_date_and_owner cancel_date (login_id user))
                           (ticket_collection s)))
  end.
Proof.
  unfold cancel_ticket_by_departure_date, bind, tickets_find_one.
  destruct (find_one _ _); reflexivity.
Qed.

Lemma cancel_every_ticket_unfold user s :
  cancel_every_ticket user s =
  ("Your tickets are all deleted.",
   mkStore (update_one (by_login_id (login_id user)) (set_mileage 0)
                       (user_collection s))
           (delete_many (by_owner (login_id user)) (ticket_collection s))).
Proof. reflexivity. Qed.

Lemma scan_tickets_owner_filter ticket every_ticket :
  scan_tickets ticket
    (find_all (by_owner (owner_login_id ticket)) every_ticket)
  = scan_tickets ticket every_ticket.
Proof.
  unfold find_all, by_owner.
  induction every_ticket as [|t rest IH]; simpl; [reflexivity|].
  destruct (String.eqb (owner_login_id t) (owner_login_id ticket)) eqn:Eo; simpl.
  - rewrite Eo, IH. reflexivity.
  - rewrite andb_false_r. exact IH.
Qed.

(** C2, as the code has it: the validator reads the tickets of every user,
    but a ticket counts against the candidate only when both its
    [departure_date] and its [owner_login_id] equal the candidate's.  The
    candidate is rejected exactly when its two end points are equal or such
    a ticket exists, and the verdict is the same when the tickets of all
    other owners are left out of the collection. *)
Theorem ticket_is_valid_scoped_to_owner :
  forall (ticket : TicketInDB) (s : Store),
    (fst (ticket_is_valid ticket s) = false <->
     starting_point ticket = ending_point ticket \/
     exists t, In t (ticket_collection s) /\ clashes ticket t) /\
    fst (ticket_is_valid ticket s) =
    fst (ticket_is_valid ticket
           (mkStore (user_collection s)
                    (find_all (by_owner (owner_login_id ticket))
                              (ticket_collection s)))).
Proof.
  intros ticket s. rewrite !ticket_is_valid_unfold. simpl.
  rewrite scan_tickets_owner_filter. split; [|reflexivity].
  destruct (String.eqb (starting_point ticket) (ending_point ticket)) eqn:E.
  - apply String.eqb_eq in E. tauto.
  - apply String.eqb_neq in E. rewrite scan_tickets_false. tauto.
Qed.

(** C2, as the claim words it, fails: bob's ticket on 2024-06-01 does not
    make the validator reject alice's candidate for the same date. *)
Lemma ticket_is_valid_any_owner_date_refuted :
  ~ (forall (ticket : TicketInDB) (s : Store),
        (exists t, In t (ticket_collection s) /\
                   departure_date t = departure_date ticket) ->
        fst (ticket_is_valid ticket s) = false).
Proof.
  intros H.
  specialize (H (to_TicketInDB Scenario.sea_lax "alice") Scenario.store).
  assert (Hex : exists t, In t (ticket_collection Scenario.store) /\
                          departure_date t = "2024-06-01").
  { exists Scenario.bob_ticket. split; [left|]; reflexivity. }
  specialize (H Hex). vm_compute in H. discriminate H.
Qed.



(** C4: for a caller whose record is the one stored under the login id,
    a successful [create_ticket] leaves that record with its mileage
    raised by exactly 100, a successful
    [cancel_ticket_by_departure_date] with its mileage lowered by exactly
    100, and [cancel_every_ticket] with mileage 0; the other six fields
    of the record are the same in each case. *)
Theorem mileage_ledger :
  forall (user u : UserInDB) (s : Store),
    find_one (by_login_id (login_id user)) (user_collection s) = Some u ->
    (forall new_ticket msg s',
        create_ticket user new_ticket s = (Some msg, s') ->
        exists u',
          find_one (by_login_id (login_id user)) (user_collection s') = Some u' /\
          mileage u' = mileage u + 100 /\ same_profile u u') /\
    (forall cancel_date msg s',
        cancel_ticket_by_departure_date cancel_date user s = (Some msg, s') ->
        exists u',
          find_one (by_login_id (login_id user)) (user_collection s') = Some u' /\
          mileage u' = mileage u - 100 /\ same_profile u u') /\
    (forall msg s',
        cancel_every_ticket user s = (msg, s') ->
        exists u',
          find_one (by_login_id (login_id user)) (user_collection s') = Some u' /\
          mileage u' = 0 /\ same_profile u u').
Proof.
  intros user u s Hu. split; [|split].
  - intros new_ticket msg s' H. rewrite create_ticket_unfold in H.
    cbv zeta in H.
    destruct (fst (ticket_is_valid _ s)); [|discriminate].
    injection H as _ <-. simpl.
    rewrite find_one_update_one by apply by_login_id_inc_mileage.
    rewrite Hu. simpl. eexists. split; [reflexivity|].
    split; [reflexivity | apply same_profile_set_mileage].
  - intros cancel_date msg s' H.
    rewrite cancel_ticket_by_departure_date_unfold in H.
    destruct (find_one (by_departure_date cancel_date) _); [|discriminate].
    injection H as _ <-. simpl.
    rewrite find_one_update_one by apply by_login_id_inc_mileage.
    rewrite Hu. simpl. eexists. split; [reflexivity|].
    split; [simpl; lia | apply same_profile_set_mileage].
  - intros msg s' H. rewrite cancel_every_ticket_unfold in H.
    injection H as _ <-. simpl.
    rewrite find_one_update_one by apply by_login_id_set_mileage.
    rewrite Hu. simpl. eexists. split; [reflexivity|].
    split; [reflexivity | apply same_profile_set_mileage].
Qed.

Lemma mileage_ledger_witness :
  find_one (by_login_id (login_id Scenario.bob))
           (user_collection Scenario.store) = Some Scenario.bob /\
  (exists u',
      find_one (by_login_id "bob")
               (user_collection
                  (snd (cancel_ticket_by_departure_date
                          "2024-06-01" Scenario.bob Scenario.store)))
      = Some u' /\ mileage u' = 0 /\ same_profile Scenario.bob u') /\
  (exists u',
      find_one (by_login_id "bob")
               (user_collection
                  (snd (create_ticket
                          Scenario.bob
                          (mkTicketCreate "LAX" "SEA" "2024-06-08" "G650")
                          Scenario.store)))
      = Some u' /\ mileage u' = 200 /\ same_profile Scenario.bob u').
Proof.
  assert (Hu : find_one (by_login_id (login_id Scenario.bob))
                        (user_collection Scenario.store) = Some Scenario.bob)
    by reflexivity.
  split; [exact Hu|].
  destruct (mileage_ledger Scenario.bob Scenario.bob Scenario.store Hu)
    as [Hbook [Hcancel _]].
  split.
  - exact (Hcancel "2024-06-01" _
                    (snd (cancel_ticket_by_departure_date
                            "2024-06-01" Scenario.bob Scenario.store))
                    eq_refl).
  - exact (Hbook (mkTicketCreate "LAX" "SEA" "2024-06-08" "G650") _
                 (snd (create_ticket
                         Scenario.bob
                         (mkTicketCreate "LAX" "SEA" "2024-06-08" "G650")
                         Scenario.store))
                 eq_refl).
Defined.

(** Resolving a token reads the user collection and writes nothing. *)
Lemma get_current_user_by_token_store jwt_decode token now s :
  snd (get_current_user_by_token jwt_decode token now s) = s.
Proof.
  unfold get_current_user_by_token.
  destruct (jwt_decode _ _ _ _) as [e|payload].
  - destruct (isinstance_JWTError e); reflexivity.
  - destruct (sub payload) as [id|]; [|reflexivity].
    unfold bind, get_user_by_login_id, users_find_one, bind.
    destruct (find_one _ _); reflexivity.
Qed.

(** C7: a candidate whose two end points are equal is rejected by the
    validator whatever its other fields, its owner and the stored tickets;
    [create_ticket] returns [None] and the store, tickets and mileages
    alike, is the one it started from; the handler answers the caller of
    such a request with a 409. *)
Theorem same_end_points_rejected :
  forall (user : UserInDB) (new_ticket : TicketCreate) (s : Store),
    tc_starting_point new_ticket = tc_ending_point new_ticket ->
    ticket_is_valid (to_TicketInDB new_ticket (login_id user)) s = (false, s) /\
    create_ticket user new_ticket s = (None, s) /\
    (forall jwt_decode access_token now,
        fst (get_current_user_by_token jwt_decode access_token now s) = inr user ->
        exists e,
          create_one_ticket jwt_decode new_ticket access_token now s
          = (inl (Http e), s) /\
          status_code e = HTTP_409_CONFLICT).
Proof.
  intros user new_ticket s Heq.
  assert (Hv : ticket_is_valid (to_TicketInDB new_ticket (login_id user)) s
               = (false, s)).
  { rewrite ticket_is_valid_unfold. simpl.
    apply String.eqb_eq in Heq. now rewrite Heq. }
  assert (Hc : create_ticket user new_ticket s = (None, s)).
  { rewrite create_ticket_unfold. cbv zeta. now rewrite Hv. }
  split; [exact Hv|]. split; [exact Hc|].
  intros jwt_decode access_token now Hr.
  pose proof (get_current_user_by_token_store jwt_decode access_token now s)
    as Hs.
  unfold create_one_ticket, bind.
  destruct (get_current_user_by_token jwt_decode access_token now s)
    as [r s0].
  simpl in Hr, Hs. subst r s0. rewrite Hc.
  eexists. split; reflexivity.
Qed.

Lemma same_end_points_rejected_witness :
  tc_starting_point (mkTicketCreate "SEA" "SEA" "2024-07-01" "G650")
  = tc_ending_point (mkTicketCreate "SEA" "SEA" "2024-07-01" "G650") /\
  create_ticket Scenario.alice (mkTicketCreate "SEA" "SEA" "2024-07-01" "G650")
                Scenario.store
  = (None, Scenario.store).
Proof.
  split; [reflexivity|].
  apply (same_end_points_rejected
           Scenario.alice (mkTicketCreate "SEA" "SEA" "2024-07-01" "G650")
           Scenario.store eq_refl).
Defined.

(** ** Registration *)

Lemma create_user_unfold get_hashed_password new_user s :
  create_user get_hashed_password new_user s =
  match find_one (by_login_id (uc_login_id new_user)) (user_collection s),
        find_one (by_email (uc_email new_user)) (user_collection s) with
  | Some _, _ => (duplicate_login_id_msg, s)
  | None, Some _ => (duplicate_email_msg, s)
  | None, None =>
      (welcome_msg new_user,
       mkStore (user_collection s ++ [stored_user get_hashed_password new_user])
               (ticket_collection s))
  end.
Proof.
  unfold create_user, bind, is_duplicate_login_id, is_duplicate_email,
    users_find_one, bind.
  destruct (find_one (by_login_id (uc_login_id new_user)) (user_collection s));
    unfold ret; cbv beta iota;
    destruct (find_one (by_email (uc_email new_user)) (user_collection s));
    reflexivity.
Qed.

Lemma welcome_msg_not_duplicate new_user :
  String.eqb (welcome_msg new_user) duplicate_login_id_msg = false /\
  String.eqb (welcome_msg new_user) duplicate_email_msg = false.
Proof. split; reflexivity. Qed.

Lemma create_one_user_unfold validate_email get_hashed_password
      form_data new_user s :
  UserCreate_of_form validate_email form_data = inr new_user ->
  exists detail409,
    create_one_user validate_email get_hashed_password form_data s =
    let r := create_user get_hashed_password new_user s in
    if String.eqb (fst r) duplicate_login_id_msg
       || String.eqb (fst r) duplicate_email_msg
    then (inl (Http (mkHTTPException HTTP_409_CONFLICT detail409 [])), snd r)
    else (inr (RedirectResponse "/index" HTTP_302_FOUND), snd r).
Proof.
  intros Hform. unfold create_one_user, bind. rewrite Hform.
  destruct (create_user get_hashed_password new_user s) as [m s'].
  simpl.
  destruct (String.eqb m duplicate_login_id_msg) eqn:E1; simpl.
  - eexists. reflexivity.
  - destruct (String.eqb m duplicate_email_msg) eqn:E2.
    + eexists. reflexivity.
    + exists "". reflexivity.
Qed.

Lemma login_id_taken_find id s :
  login_id_taken id s <->
  exists u, find_one (by_login_id id) (user_collection s) = Some u.
Proof.
  split.
  - intros [u [Hin Hid]]. apply find_one_exists. exists u.
    split; [exact Hin|]. unfold by_login_id. now apply String.eqb_eq.
  - intros [u Hu]. apply find_one_some in Hu. destruct Hu as [Hin Hq].
    exists u. split; [exact Hin|]. now apply String.eqb_eq.
Qed.

Lemma email_taken_find e s :
  email_taken e s <->
  exists u, find_one (by_email e) (user_collection s) = Some u.
Proof.
  split.
  - intros [u [Hin Hid]]. apply find_one_exists. exists u.
    split; [exact Hin|]. unfold by_email. now apply String.eqb_eq.
  - intros [u Hu]. apply find_one_some in Hu. destruct Hu as [Hin Hq].
    exists u. split; [exact Hin|]. now apply String.eqb_eq.
Qed.

Lemma not_taken_find_none {D} (q : D -> bool) (c : list D) :
  ~ (exists d, find_one q c = Some d) -> find_one q c = None.
Proof.
  destruct (find_one q c) as [d|]; [|reflexivity].
  intros H. destruct H. now exists d.
Qed.

(** C8, as the code has it.  In every state of the user store,
    [create_user] answers a login id that is already stored with
    "duplicate login_id", and an e-mail that is already stored, under a
    login id that is not, with "duplicate email"; the store is the one
    before the call, and when neither is stored the new record is
    appended.  The handler applies this to the [UserCreate] it builds from
    the form, whose e-mail is the validated, normalised address: a stored
    login id or a stored normalised e-mail is answered with a 409 and
    nothing is inserted, a form free of both is stored and redirected, and
    a form whose e-mail does not validate raises before [create_user] and
    stores nothing. *)
Theorem create_user_duplicates :
  forall (validate_email : string -> option string)
         (get_hashed_password : string -> string) (s : Store),
    let conflict r :=
      exists e, r = (inl (Http e), s) /\ status_code e = HTTP_409_CONFLICT in
    let stored new_user :=
      mkStore (user_collection s ++ [stored_user get_hashed_password new_user])
              (ticket_collection s) in
    (forall new_user,
        (login_id_taken (uc_login_id new_user) s ->
         create_user get_hashed_password new_user s
         = (duplicate_login_id_msg, s)) /\
        (email_taken (uc_email new_user) s ->
         ~ login_id_taken (uc_login_id new_user) s ->
         create_user get_hashed_password new_user s
         = (duplicate_email_msg, s)) /\
        (~ login_id_taken (uc_login_id new_user) s ->
         ~ email_taken (uc_email new_user) s ->
         create_user get_hashed_password new_user s
         = (welcome_msg new_user, stored new_user))) /\
    (forall form_data new_user,
        UserCreate_of_form validate_email form_data = inr new_user ->
        (uc_login_id new_user = form_login_id form_data /\
         validate_email (form_email form_data) = Some (uc_email new_user)) /\
        (login_id_taken (uc_login_id new_user) s ->
         conflict (create_one_user validate_email get_hashed_password
                                   form_data s)) /\
        (email_taken (uc_email new_user) s ->
         conflict (create_one_user validate_email get_hashed_password
                                   form_data s)) /\
        (~ login_id_taken (uc_login_id new_user) s ->
         ~ email_taken (uc_email new_user) s ->
         create_one_user validate_email get_hashed_password form_data s
         = (inr (RedirectResponse "/index" HTTP_302_FOUND), stored new_user))) /\
    (forall form_data,
        validate_email (form_email form_data) = None ->
        create_one_user validate_email get_hashed_password form_data s
        = (inl (Pydantic (mkValidationError "email" (form_email form_data))),
           s)).
Proof.
  intros validate hash s conflict stored. subst conflict stored. cbv beta.
  assert (Hcrud : forall new_user,
             (login_id_taken (uc_login_id new_user) s ->
              create_user hash new_user s = (duplicate_login_id_msg, s)) /\
             (email_taken (uc_email new_user) s ->
              ~ login_id_taken (uc_login_id new_user) s ->
              create_user hash new_user s = (duplicate_email_msg, s)) /\
             (~ login_id_taken (uc_login_id new_user) s ->
              ~ email_taken (uc_email new_user) s ->
              create_user hash new_user s
              = (welcome_msg new_user,
                 mkStore (user_collection s ++ [stored_user hash new_user])
                         (ticket_collection s)))).
  { intros new_user. rewrite create_user_unfold. split; [|split].
    - intros Hl. apply login_id_taken_find in Hl. destruct Hl as [u Hu].
      now rewrite Hu.
    - intros He Hl. apply email_taken_find in He. destruct He as [u Hu].
      rewrite login_id_taken_find in Hl.
      now rewrite Hu, (not_taken_find_none _ _ Hl).
    - intros Hl He.
      rewrite login_id_taken_find in Hl. rewrite email_taken_find in He.
      now rewrite (not_taken_find_none _ _ Hl), (not_taken_find_none _ _ He). }
  split; [exact Hcrud|]. split.
  - intros form_data new_user Hform.
    destruct (Hcrud new_user) as [Hlogin [Hemail Hfree]].
    destruct (create_one_user_unfold validate hash form_data new_user s Hform)
      as [d Hd].
    rewrite Hd. clear Hd. cbv zeta.
    split; [|split; [|split]].
    + unfold UserCreate_of_form in Hform.
      destruct (validate (form_email form_data)) as [e|]; [|discriminate Hform].
      injection Hform as <-. split; reflexivity.
    + intros Hl. rewrite (Hlogin Hl). simpl. eexists. split; reflexivity.
    + intros He.
      destruct (find_one (by_login_id (uc_login_id new_user))
                         (user_collection s)) as [u|] eqn:El.
      * assert (Hl : login_id_taken (uc_login_id new_user) s)
          by (apply login_id_taken_find; now exists u).
        rewrite (Hlogin Hl). simpl. eexists. split; reflexivity.
      * assert (Hl : ~ login_id_taken (uc_login_id new_user) s).
        { rewrite login_id_taken_find. intros [u Hu]. congruence. }
        rewrite (Hemail He Hl). simpl. eexists. split; reflexivity.
    + intros Hl He. rewrite (Hfree Hl He). cbn [fst snd].
      destruct (welcome_msg_not_duplicate new_user) as [-> ->].
      reflexivity.
  - intros form_data Hnone. unfold create_one_user, UserCreate_of_form.
    now rewrite Hnone.
Qed.

Lemma create_user_duplicates_witness :
  UserCreate_of_form ToyEmail.validate Scenario.alice_form_again
  = inr (mkUserCreate "alice" "other@x.com" "20000101" "female" "A2" "x") /\
  UserCreate_of_form ToyEmail.validate Scenario.carol_form_bob_email
  = inr (mkUserCreate "carol" "b@x.com" "20000101" "female" "Carol C" "pw3") /\
  UserCreate_of_form ToyEmail.validate Scenario.carol_form
  = inr (mkUserCreate "carol" "Carol@x.com" "20000101" "female" "Carol C"
                      "pw3") /\
  ToyEmail.validate (form_email Scenario.carol_form_no_at) = None /\
  login_id_taken "alice" Scenario.store /\
  email_taken "b@x.com" Scenario.store /\
  ~ login_id_taken "carol" Scenario.store /\
  ~ email_taken "Carol@x.com" Scenario.store /\
  (exists e,
      create_one_user ToyEmail.validate ToyJose.hash Scenario.alice_form_again
                      Scenario.store
      = (inl (Http e), Scenario.store) /\ status_code e = HTTP_409_CONFLICT) /\
  create_user ToyJose.hash
    (mkUserCreate "carol" "b@x.com" "20000101" "female" "Carol C" "pw3")
    Scenario.store
  = (duplicate_email_msg, Scenario.store) /\
  (exists e,
      create_one_user ToyEmail.validate ToyJose.hash
                      Scenario.carol_form_bob_email Scenario.store
      = (inl (Http e), Scenario.store) /\ status_code e = HTTP_409_CONFLICT) /\
  fst (create_one_user ToyEmail.validate ToyJose.hash Scenario.carol_form
                       Scenario.store)
  = inr (RedirectResponse "/index" HTTP_302_FOUND) /\
  create_one_user ToyEmail.validate ToyJose.hash Scenario.carol_form_no_at
                  Scenario.store
  = (inl (Pydantic (mkValidationError "email" "carol.x.com")), Scenario.store).
Proof.
  assert (F1 : UserCreate_of_form ToyEmail.validate Scenario.alice_form_again
               = inr (mkUserCreate "alice" "other@x.com" "20000101" "female"
                                    "A2" "x")) by reflexivity.
  assert (F2 : UserCreate_of_form ToyEmail.validate
                                  Scenario.carol_form_bob_email
               = inr (mkUserCreate "carol" "b@x.com" "20000101" "female"
                                    "Carol C" "pw3")) by reflexivity.
  assert (F3 : UserCreate_of_form ToyEmail.validate Scenario.carol_form
               = inr (mkUserCreate "carol" "Carol@x.com" "20000101" "female"
                                    "Carol C" "pw3")) by reflexivity.
  assert (F4 : ToyEmail.validate (form_email Scenario.carol_form_no_at) = None)
    by reflexivity.
  assert (Hl : login_id_taken "alice" Scenario.store).
  { exists Scenario.alice. split; [left|]; reflexivity. }
  assert (He : email_taken "b@x.com" Scenario.store).
  { exists Scenario.bob. split; [right; left|]; reflexivity. }
  assert (Hnl : ~ login_id_taken "carol" Scenario.store).
  { intros [u [[<-|[<-|[]]] H]]; discriminate H. }
  assert (Hne : ~ email_taken "Carol@x.com" Scenario.store).
  { intros [u [[<-|[<-|[]]] H]]; discriminate H. }
  split; [exact F1|]. split; [exact F2|]. split; [exact F3|].
  split; [exact F4|]. split; [exact Hl|]. split; [exact He|].
  split; [exact Hnl|]. split; [exact Hne|].
  destruct (create_user_duplicates ToyEmail.validate ToyJose.hash
              Scenario.store) as [Hcrud [Hform Hinvalid]].
  split; [|split; [|split; [|split]]].
  - destruct (Hform _ _ F1) as [_ [H _]]. exact (H Hl).
  - destruct (Hcrud (mkUserCreate "carol" "b@x.com" "20000101" "female"
                                  "Carol C" "pw3")) as [_ [H _]].
    exact (H He Hnl).
  - destruct (Hform _ _ F2) as [_ [_ [H _]]]. exact (H He).
  - destruct (Hform _ _ F3) as [_ [_ [_ H]]].
    rewrite (H Hnl Hne). reflexivity.
  - exact (Hinvalid _ F4).
Defined.

(** C8, as the claim words it, fails: when alice's own form is submitted
    again, both her login id and her email are stored, and the answer is
    "duplicate login_id", not "duplicate email". *)
Lemma duplicate_email_answered_as_login_id :
  ~ (forall (get_hashed_password : string -> string)
            (new_user : UserCreate) (s : Store),
        email_taken (uc_email new_user) s ->
        fst (create_user get_hashed_password new_user s) = duplicate_email_msg).
Proof.
  intros H.
  specialize (H ToyJose.hash Scenario.alice_form Scenario.store).
  assert (He : email_taken (uc_email Scenario.alice_form) Scenario.store).
  { exists Scenario.alice. split; [left|]; reflexivity. }
  specialize (H He). vm_compute in H. discriminate H.
Qed.

(** C10: whenever [create_user] answers with something other than the two
    duplicate messages, the user collection has grown by exactly one
    record, built from the form, and the mileage of that record is 0. *)
Theorem create_user_mileage_zero :
  forall (get_hashed_password : string -> string)
         (new_user : UserCreate) (s s' : Store) (msg : string),
    create_user get_hashed_password new_user s = (msg, s') ->
    msg <> duplicate_login_id_msg ->
    msg <> duplicate_email_msg ->
    exists u,
      user_collection s' = (user_collection s ++ [u])%list /\
      mileage u = 0 /\
      login_id u = uc_login_id new_user /\ email u = uc_email new_user.
Proof.
  intros hash new_user s s' msg H Hn1 Hn2.
  rewrite create_user_unfold in H.
  destruct (find_one (by_login_id _) _).
  { injection H as <- _. now destruct Hn1. }
  destruct (find_one (by_email _) _).
  { injection H as <- _. now destruct Hn2. }
  injection H as _ <-. simpl.
  exists (stored_user hash new_user). repeat split.
Qed.

Lemma create_user_mileage_zero_witness :
  create_user ToyJose.hash Scenario.alice_form empty_store
  = (welcome_msg Scenario.alice_form, mkStore [Scenario.alice] []) /\
  welcome_msg Scenario.alice_form <> duplicate_login_id_msg /\
  welcome_msg Scenario.alice_form <> duplicate_email_msg /\
  exists u,
    [Scenario.alice] = ([] ++ [u])%list /\ mileage u = 0 /\
    login_id u = "alice" /\ email u = "a@x.com".
Proof.
  assert (H : create_user ToyJose.hash Scenario.alice_form empty_store
              = (welcome_msg Scenario.alice_form, mkStore [Scenario.alice] []))
    by reflexivity.
  assert (Hn1 : welcome_msg Scenario.alice_form <> duplicate_login_id_msg)
    by discriminate.
  assert (Hn2 : welcome_msg Scenario.alice_form <> duplicate_email_msg)
    by discriminate.
  split; [exact H|]. split; [exact Hn1|]. split; [exact Hn2|].
  exact (create_user_mileage_zero ToyJose.hash Scenario.alice_form
           empty_store _ _ H Hn1 Hn2).
Defined.

(** ** Cancelling one ticket *)

Lemma by_date_and_owner_false cancel_date id s :
  ~ owns_ticket_on id cancel_date s ->
  forall t, In t (ticket_collection s) ->
            by_date_and_owner cancel_date id t = false.
Proof.
  intros Hno t Hin. unfold by_date_and_owner.
  destruct (String.eqb (departure_date t) cancel_date) eqn:Ed; [|reflexivity].
  destruct (String.eqb (owner_login_id t) id) eqn:Eo; [|reflexivity].
  apply String.eqb_eq in Ed, Eo. destruct Hno. exists t. auto.
Qed.

(** C9: when some stored ticket, of whatever owner, departs on
    [cancel_date] and the caller owns none that does, the call returns its
    success message, the ticket collection is the one before the call, and
    the caller's stored mileage is 100 lower. *)
Theorem cancel_without_own_ticket_still_debits :
  forall (cancel_date : string) (user u : UserInDB) (s : Store),
    (exists t, In t (ticket_collection s) /\ departure_date t = cancel_date) ->
    ~ owns_ticket_on (login_id user) cancel_date s ->
    find_one (by_login_id (login_id user)) (user_collection s) = Some u ->
    exists s',
      cancel_ticket_by_departure_date cancel_date user s
      = (Some ("Your flight on " ++ cancel_date ++ " has been deleted."), s') /\
      ticket_collection s' = ticket_collection s /\
      exists u',
        find_one (by_login_id (login_id user)) (user_collection s') = Some u' /\
        mileage u' = mileage u - 100 /\ same_profile u u'.
Proof.
  intros cancel_date user u s [t [Hin Hd]] Hno Hu.
  rewrite cancel_ticket_by_departure_date_unfold.
  destruct (find_one_exists (by_departure_date cancel_date) (ticket_collection s))
    as [t' Ht'].
  { exists t. split; [exact Hin|]. unfold by_departure_date.
    now apply String.eqb_eq. }
  rewrite Ht'. eexists. split; [reflexivity|]. simpl. split.
  - apply delete_one_no_match. now apply by_date_and_owner_false.
  - rewrite find_one_update_one by apply by_login_id_inc_mileage.
    rewrite Hu. simpl. eexists. split; [reflexivity|].
    split; [simpl; lia | apply same_profile_set_mileage].
Qed.

Lemma cancel_without_own_ticket_still_debits_witness :
  (exists t, In t (ticket_collection Scenario.store) /\
             departure_date t = "2024-06-01") /\
  ~ owns_ticket_on (login_id Scenario.alice) "2024-06-01" Scenario.store /\
  find_one (by_login_id (login_id Scenario.alice))
           (user_collection Scenario.store) = Some Scenario.alice /\
  exists s',
    cancel_ticket_by_departure_date "2024-06-01" Scenario.alice Scenario.store
    = (Some ("Your flight on " ++ "2024-06-01" ++ " has been deleted."), s') /\
    ticket_collection s' = ticket_collection Scenario.store /\
    exists u',
      find_one (by_login_id (login_id Scenario.alice)) (user_collection s')
      = Some u' /\
      mileage u' = mileage Scenario.alice - 100 /\
      same_profile Scenario.alice u'.
Proof.
  assert (H1 : exists t, In t (ticket_collection Scenario.store) /\
                         departure_date t = "2024-06-01").
  { exists Scenario.bob_ticket. split; [left|]; reflexivity. }
  assert (H2 : ~ owns_ticket_on (login_id Scenario.alice) "2024-06-01"
                                Scenario.store).
  { intros [t [[<-|[]] [_ Ho]]]. discriminate Ho. }
  assert (H3 : find_one (by_login_id (login_id Scenario.alice))
                        (user_collection Scenario.store) = Some Scenario.alice)
    by reflexivity.
  split; [exact H1|]. split; [exact H2|]. split; [exact H3|].
  exact (cancel_without_own_ticket_still_debits
           "2024-06-01" Scenario.alice Scenario.alice Scenario.store H1 H2 H3).
Defined.

(** The part of the existence check that the code does have: [None] is
    returned exactly when no ticket at all departs on [cancel_date]. *)
Lemma cancel_ticket_by_departure_date_none cancel_date user s :
  fst (cancel_ticket_by_departure_date cancel_date user s) = None <->
  forall t, In t (ticket_collection s) -> departure_date t <> cancel_date.
Proof.
  rewrite cancel_ticket_by_departure_date_unfold.
  destruct (find_one (by_departure_date cancel_date) (ticket_collection s))
    as [t|] eqn:E; simpl.
  - split; [discriminate|]. intros H.
    apply find_one_some in E. destruct E as [Hin Hq].
    apply String.eqb_eq in Hq. destruct (H t Hin Hq).
  - split; [|reflexivity]. intros _ t Hin Hd.
    rewrite find_one_none in E. specialize (E t Hin).
    unfold by_departure_date in E. apply String.eqb_neq in E. contradiction.
Qed.

(** ** Reachable stores *)

Lemma scenario_store_reachable :
  run_requests ToyJose.hash
    [Register Scenario.alice_form; Register Scenario.bob_form;
     Book "bob" Scenario.sea_lax] empty_store
  = Scenario.store.
Proof. reflexivity. Qed.

(** C6 on the code: from the empty store, two registrations, a booking by
    bob and a cancel-one by alice for bob's date end in a store where
    alice's mileage is -100; [mileage >= 0] holds at the start and not at
    the end. *)
Theorem mileage_goes_negative :
  mileage_nonneg empty_store /\
  run_requests ToyJose.hash Scenario.requests empty_store
  = mkStore [set_mileage (-100) Scenario.alice; Scenario.bob]
            [Scenario.bob_ticket] /\
  ~ mileage_nonneg (run_requests ToyJose.hash Scenario.requests empty_store).
Proof.
  split; [intros u []|]. split; [reflexivity|].
  intros H.
  specialize (H (set_mileage (-100) Scenario.alice) (or_introl eq_refl)).
  simpl in H. lia.
Qed.

(** ** Tokens *)

Lemma contains_char_app c a b :
  contains_char c (a ++ b) = contains_char c a || contains_char c b.
Proof.
  induction a as [|x a IH]; simpl; [reflexivity|].
  now rewrite IH, orb_assoc.
Qed.

Lemma startswith_app s old :
  startswith s old = true -> exists r, s = old ++ r.
Proof.
  revert s. induction old as [|a old IH]; intros s H.
  - now exists s.
  - destruct s as [|b s]; [discriminate H|]. simpl in H.
    apply andb_true_iff in H. destruct H as [Hab H].
    apply Ascii.eqb_eq in Hab. subst b.
    destruct (IH s H) as [r ->]. now exists r.
Qed.

Lemma replace_from_step old new c s :
  replace_from old new O (String c s) =
  if startswith (String c s) old
  then new ++ replace_from old new (Nat.pred (String.length old)) s
  else String c (replace_from old new O s).
Proof. reflexivity. Qed.

(** A token without a space holds no "Bearer " to replace. *)
Lemma replace_Bearer_absent s :
  contains_char " " s = false -> replace "Bearer " "" s = s.
Proof.
  unfold replace. induction s as [|c s IH]; intros H; [reflexivity|].
  rewrite replace_from_step.
  destruct (startswith (String c s) "Bearer ") eqn:E.
  - apply startswith_app in E. destruct E as [r Hr]. rewrite Hr in H.
    simpl in H. discriminate H.
  - simpl in H. apply orb_false_iff in H. destruct H as [_ H].
    now rewrite (IH H).
Qed.

(** The cookie value: the prefix is dropped and the token is left. *)
Lemma replace_Bearer_prefixed s :
  contains_char " " s = false -> replace "Bearer " "" ("Bearer " ++ s) = s.
Proof.
  intros H. unfold replace. simpl.
  now apply replace_Bearer_absent.
Qed.

Module ToyJoseFacts.
Import ToyJose.

Lemma unbit_bit b : unbit (bit b) = b.
Proof. now destruct b. Qed.

Lemma unbits_bits s : unbits (bits s) = s.
Proof.
  induction s as [|[b0 b1 b2 b3 b4 b5 b6 b7] s IH]; [reflexivity|].
  simpl. now rewrite !unbit_bit, IH.
Qed.

Lemma contains_char_bits c s :
  Ascii.eqb "0" c = false -> Ascii.eqb "1" c = false ->
  contains_char c (bits s) = false.
Proof.
  intros H0 H1.
  assert (Hb : forall b, Ascii.eqb (bit b) c = false) by (now intros []).
  induction s as [|[b0 b1 b2 b3 b4 b5 b6 b7] s IH]; [reflexivity|].
  simpl. now rewrite !Hb, IH.
Qed.

Lemma contains_char_ones c n :
  Ascii.eqb "1" c = false -> contains_char c (ones n) = false.
Proof.
  intros H1. induction n as [|n IH]; [reflexivity|].
  cbn [ones contains_char]. now rewrite H1, IH.
Qed.

Lemma length_ones n : String.length (ones n) = n.
Proof. induction n as [|n IH]; simpl; congruence. Qed.

Lemma contains_char_enc_exp c e :
  Ascii.eqb "1" c = false -> Ascii.eqb "N" c = false ->
  Ascii.eqb "+" c = false -> Ascii.eqb "-" c = false ->
  contains_char c (enc_exp e) = false.
Proof.
  intros H1 HN Hp Hm. destruct e as [z|]; unfold enc_exp.
  - destruct (z <? 0); cbn [append contains_char]; rewrite ?Hp, ?Hm;
      now apply contains_char_ones.
  - cbn [contains_char]. now rewrite HN.
Qed.

Lemma contains_char_enc_sub c x :
  Ascii.eqb "0" c = false -> Ascii.eqb "1" c = false ->
  Ascii.eqb "N" c = false -> Ascii.eqb "S" c = false ->
  contains_char c (enc_sub x) = false.
Proof.
  intros H0 H1 HN HS. destruct x as [x|]; unfold enc_sub.
  - cbn [contains_char]. rewrite HS. now apply contains_char_bits.
  - cbn [contains_char]. now rewrite HN.
Qed.

Lemma dec_exp_enc_exp e : dec_exp (enc_exp e) = Some e.
Proof.
  destruct e as [z|]; [|reflexivity].
  unfold enc_exp. destruct (z <? 0) eqn:E; simpl; rewrite length_ones;
    rewrite Zabs2Nat.id_abs; do 2 f_equal.
  - apply Z.ltb_lt in E. lia.
  - apply Z.ltb_ge in E. lia.
Qed.

Lemma dec_sub_enc_sub x : dec_sub (enc_sub x) = Some x.
Proof.
  destruct x as [x|]; [|reflexivity].
  simpl. now rewrite unbits_bits.
Qed.

Lemma split_dot_app a b :
  contains_char "." a = false ->
  split_dot (a ++ String "." b) = Some (a, b).
Proof.
  induction a as [|c a IH]; intros H; [reflexivity|].
  simpl in H. apply orb_false_iff in H. destruct H as [Hc H].
  simpl. now rewrite Hc, (IH H).
Qed.

Lemma decode_encode c key algorithm algorithms now :
  decode (encode c key algorithm) key algorithms now = validate_claims c now.
Proof.
  unfold decode, encode.
  change ("." ++ enc_exp (exp c) ++ "." ++ enc_sub (sub c))
    with (String "." (enc_exp (exp c) ++ String "." (enc_sub (sub c)))).
  rewrite split_dot_app by now apply contains_char_bits.
  rewrite String.eqb_refl. simpl negb. cbv iota.
  rewrite split_dot_app by now apply contains_char_enc_exp.
  rewrite dec_exp_enc_exp, dec_sub_enc_sub.
  now destruct c.
Qed.

Lemma encode_no_space c key algorithm :
  contains_char " " (encode c key algorithm) = false.
Proof.
  unfold encode. rewrite !contains_char_app.
  rewrite contains_char_bits, contains_char_enc_exp, contains_char_enc_sub;
    reflexivity.
Qed.

End ToyJoseFacts.

Lemma get_current_user_by_token_decoded jwt_decode token now s payload id :
  jwt_decode (replace "Bearer " "" token) SECRET_KEY ALGORITHM now = inr payload ->
  sub payload = Some id ->
  get_current_user_by_token jwt_decode token now s =
  (match find_one (by_login_id id) (user_collection s) with
   | Some u => inr u
   | None => inl (Http credential_exception)
   end, s).
Proof.
  intros Hd Hs. unfold get_current_user_by_token. rewrite Hd, Hs.
  unfold bind, get_user_by_login_id, users_find_one, bind.
  destruct (find_one _ _); reflexivity.
Qed.

(** Every [JWTError] of [jwt.decode] is answered with the one
    [credential_exception]. *)
Lemma get_current_user_by_token_raised jwt_decode token now s e :
  jwt_decode (replace "Bearer " "" token) SECRET_KEY ALGORITHM now = inl e ->
  isinstance_JWTError e = true ->
  get_current_user_by_token jwt_decode token now s =
  (inl (Http credential_exception), s).
Proof.
  intros Hd He. unfold get_current_user_by_token. now rewrite Hd, He.
Qed.

(** Any other exception of [jwt.decode] leaves the function as it is. *)
Lemma get_current_user_by_token_uncaught jwt_decode token now s e :
  jwt_decode (replace "Bearer " "" token) SECRET_KEY ALGORITHM now = inl e ->
  isinstance_JWTError e = false ->
  get_current_user_by_token jwt_decode token now s = (inl (Jose e), s).
Proof.
  intros Hd He. unfold get_current_user_by_token. now rewrite Hd, He.
Qed.

Section TokenLaws.
Variable jwt_encode : Claims -> string -> string -> string.
Variable jwt_decode : string -> string -> string -> Z -> JoseError + Claims.

(** What the code relies on: a token signed with the key decodes, under
    the same key, to the claims it was made from once they are validated
    against the clock; and a token holds no space. *)
Hypothesis decode_encode :
  forall c now,
    jwt_decode (jwt_encode c SECRET_KEY ALGORITHM) SECRET_KEY ALGORITHM now
    = validate_claims c now.
Hypothesis token_no_space :
  forall c, contains_char " " (jwt_encode c SECRET_KEY ALGORITHM) = false.

Lemma create_access_token_claims data expires_delta issued :
  create_access_token jwt_encode data expires_delta issued =
  jwt_encode (mkClaims (sub data) (Some (expiry expires_delta issued)))
             SECRET_KEY ALGORITHM.
Proof.
  unfold create_access_token, expiry, minutes.
  destruct expires_delta as [d|]; [destruct (d =? 0)|]; reflexivity.
Qed.


End TokenLaws.




(** C1 on the code: alice owns no ticket on 2024-06-01 and bob owns one.
    Her cancel-one for that date does not return [None]: it returns the
    success message, deletes nothing and debits her mileage, and the
    handler redirects instead of answering 404. *)
Theorem cancel_one_foreign_date_not_404 :
  ~ owns_ticket_on "alice" "2024-06-01" Scenario.store /\
  cancel_ticket_by_departure_date "2024-06-01" Scenario.alice Scenario.store
  = (Some "Your flight on 2024-06-01 has been deleted.",
     mkStore [set_mileage (-100) Scenario.alice; Scenario.bob]
             [Scenario.bob_ticket]) /\
  cancel_one_ticket_post_confirm ToyJose.decode "2024-06-01"
    ("Bearer " ++ Scenario.alice_token) 100 Scenario.store
  = (inr (RedirectResponse "/private" HTTP_302_FOUND),
     mkStore [set_mileage (-100) Scenario.alice; Scenario.bob]
             [Scenario.bob_ticket]).
Proof.
  split; [|split].
  - intros [t [[<-|[]] [_ Ho]]]. discriminate Ho.
  - reflexivity.
  - vm_compute. reflexivity.
Qed.

(** * Further properties of the code *)

(** ** More on collections *)

Section MoreCollectionFacts.
Context {D : Type}.
Implicit Types (q p : D -> bool) (f : D -> D) (c : list D).

Lemma map_update_one {K} (g : D -> K) q f c :
  (forall d, g (f d) = g d) -> map g (update_one q f c) = map g c.
Proof.
  intros Hg. induction c as [|d c IH]; simpl; [reflexivity|].
  destruct (q d); simpl; [now rewrite Hg | now rewrite IH].
Qed.

Lemma update_one_update_one q f g c :
  (forall d, q (f d) = q d) ->
  update_one q g (update_one q f c) = update_one q (fun d => g (f d)) c.
Proof.
  intros Hq. induction c as [|d c IH]; simpl; [reflexivity|].
  destruct (q d) eqn:E; simpl.
  - now rewrite Hq, E.
  - now rewrite E, IH.
Qed.

Lemma update_one_id q f c : (forall d, f d = d) -> update_one q f c = c.
Proof.
  intros Hf. induction c as [|d c IH]; simpl; [reflexivity|].
  destruct (q d); [now rewrite Hf | now rewrite IH].
Qed.

Lemma filter_update_one_others q f c :
  (forall d, q (f d) = q d) ->
  filter (fun d => negb (q d)) (update_one q f c)
  = filter (fun d => negb (q d)) c.
Proof.
  intros Hq. induction c as [|d c IH]; simpl; [reflexivity|].
  destruct (q d) eqn:E; simpl.
  - now rewrite Hq, E.
  - now rewrite E, IH.
Qed.

Lemma In_update_one q f c d :
  In d (update_one q f c) ->
  In d c \/ exists d0, In d0 c /\ q d0 = true /\ d = f d0.
Proof.
  induction c as [|x c IH]; simpl; [tauto|].
  destruct (q x) eqn:E; simpl.
  - intros [<-|H]; [right; exists x; auto | auto].
  - intros [<-|H]; [auto|].
    destruct (IH H) as [H'|[d0 [H1 H2]]]; [auto|].
    right. exists d0. auto.
Qed.

Lemma In_update_one_keep q f c d :
  In d c -> q d = false -> In d (update_one q f c).
Proof.
  induction c as [|x c IH]; simpl; [tauto|].
  intros [->|H] Hq.
  - rewrite Hq. now left.
  - destruct (q x); simpl; auto.
Qed.

Lemma In_delete_one q c d : In d (delete_one q c) -> In d c.
Proof.
  induction c as [|x c IH]; simpl; [tauto|].
  destruct (q x); simpl; [auto|]. intros [H|H]; auto.
Qed.

Lemma In_delete_one_keep q c d :
  In d c -> q d = false -> In d (delete_one q c).
Proof.
  induction c as [|x c IH]; simpl; [tauto|].
  intros [->|H] Hq.
  - rewrite Hq. now left.
  - destruct (q x); simpl; auto.
Qed.

Lemma NoDup_map_delete_one {K} (g : D -> K) q c :
  NoDup (map g c) -> NoDup (map g (delete_one q c)).
Proof.
  induction c as [|x c IH]; simpl; intros H; [exact H|].
  inversion H as [|? ? Hnin Hnd]; subst.
  destruct (q x); [exact Hnd|].
  simpl. constructor; [|auto].
  intros Hin. apply Hnin. apply in_map_iff in Hin.
  destruct Hin as [y [Hy Hin]]. apply in_map_iff. exists y.
  split; [exact Hy|]. now apply In_delete_one in Hin.
Qed.

Lemma NoDup_map_filter {K} (g : D -> K) p c :
  NoDup (map g c) -> NoDup (map g (filter p c)).
Proof.
  induction c as [|x c IH]; simpl; intros H; [exact H|].
  inversion H as [|? ? Hnin Hnd]; subst.
  destruct (p x); [|auto].
  simpl. constructor; [|auto].
  intros Hin. apply Hnin. apply in_map_iff in Hin.
  destruct Hin as [y [Hy Hin]]. apply in_map_iff. exists y.
  split; [exact Hy|]. apply filter_In in Hin. tauto.
Qed.

Lemma NoDup_map_snoc {K} (g : D -> K) c d :
  NoDup (map g c) -> ~ In (g d) (map g c) -> NoDup (map g (c ++ [d])).
Proof.
  intros Hnd Hnin. rewrite map_app. apply NoDup_app; [exact Hnd| |].
  - simpl. constructor; [tauto | constructor].
  - intros a Ha [<-|[]]. contradiction.
Qed.

Lemma delete_one_snoc q c d :
  (forall x, In x c -> q x = false) -> q d = true ->
  delete_one q (c ++ [d]) = c.
Proof.
  intros Hc Hd. induction c as [|x c IH]; simpl.
  - now rewrite Hd.
  - rewrite (Hc x (or_introl eq_refl)). f_equal. apply IH.
    intros y Hy. apply Hc. now right.
Qed.

(** Deleting the first match takes exactly that document out of any
    selection. *)
Lemma filter_delete_one_length p q c x :
  find_one q c = Some x ->
  List.length (filter p c)
  = (List.length (filter p (delete_one q c)) + (if p x then 1 else 0))%nat.
Proof.
  unfold find_one. induction c as [|y c IH]; simpl; [discriminate|].
  destruct (q y) eqn:E.
  - intros [= ->]. destruct (p x); simpl; lia.
  - intros H. simpl. specialize (IH H). destruct (p y); simpl; lia.
Qed.

(** Under a key that no two documents share, [delete_one] on that key
    leaves exactly the documents of the other keys. *)
Lemma In_delete_one_key {K} (g : D -> K) q (k : K) c d :
  (forall x, q x = true <-> g x = k) ->
  NoDup (map g c) ->
  (In d (delete_one q c) <-> In d c /\ g d <> k).
Proof.
  intros Hq. induction c as [|x c IH]; simpl; intros Hnd; [tauto|].
  inversion Hnd as [|? ? Hnin Hnd']; subst.
  destruct (q x) eqn:E.
  - apply Hq in E. split.
    + intros Hin. split; [auto|]. intros Hk. apply Hnin.
      rewrite E, <- Hk. now apply in_map.
    + intros [[<-|Hin] Hk]; [contradiction | exact Hin].
  - assert (Hx : g x <> k) by (intros Hk; apply Hq in Hk; congruence).
    simpl. rewrite (IH Hnd'). split.
    + intros [<-|[Hin Hk]]; auto.
    + intros [[<-|Hin] Hk]; auto.
Qed.
End MoreCollectionFacts.

(** ** Booking and cancelling, composed *)

Lemma store_eta s : mkStore (user_collection s) (ticket_collection s) = s.
Proof. now destruct s. Qed.

Lemma inc_mileage_inverse u : inc_mileage (-100) (inc_mileage 100 u) = u.
Proof.
  destruct u. unfold inc_mileage, set_mileage. simpl. f_equal. lia.
Qed.

Lemma ticket_is_valid_true ticket s :
  fst (ticket_is_valid ticket s) = true <->
  starting_point ticket <> ending_point ticket /\
  forall t, In t (ticket_collection s) -> ~ clashes ticket t.
Proof.
  rewrite ticket_is_valid_unfold. simpl.
  destruct (String.eqb (starting_point ticket) (ending_point ticket)) eqn:E.
  - apply String.eqb_eq in E. split; [discriminate | tauto].
  - apply String.eqb_neq in E. rewrite scan_tickets_true. tauto.
Qed.

Lemma by_date_and_owner_true d id t :
  by_date_and_owner d id t = true <-> ticket_key t = (id, d).
Proof.
  unfold by_date_and_owner, ticket_key. rewrite andb_true_iff.
  rewrite !String.eqb_eq. split.
  - intros [-> ->]. reflexivity.
  - intros [= -> ->]. auto.
Qed.

Lemma by_date_and_owner_no_clash new_ticket id s :
  (forall t, In t (ticket_collection s) ->
             ~ clashes (to_TicketInDB new_ticket id) t) ->
  forall t, In t (ticket_collection s) ->
            by_date_and_owner (tc_departure_date new_ticket) id t = false.
Proof.
  intros H t Hin.
  destruct (by_date_and_owner (tc_departure_date new_ticket) id t) eqn:E;
    [|reflexivity].
  apply by_date_and_owner_true in E. injection E as Ho Hd.
  destruct (H t Hin). split; assumption.
Qed.

(** X1: a booking that succeeded is undone by cancelling its date: the
    cancel succeeds and the store, tickets and mileages, is again the one
    before the booking. *)
Theorem book_then_cancel_restores :
  forall (user : UserInDB) (new_ticket : TicketCreate) (s s' : Store)
         (msg : string),
    create_ticket user new_ticket s = (Some msg, s') ->
    cancel_ticket_by_departure_date (tc_departure_date new_ticket) user s'
    = (Some ("Your flight on " ++ tc_departure_date new_ticket
             ++ " has been deleted."), s).
Proof.
  intros user new_ticket s s' msg H.
  rewrite create_ticket_unfold in H. cbv zeta in H.
  destruct (fst (ticket_is_valid (to_TicketInDB new_ticket (login_id user)) s))
    eqn:Hv; [|discriminate H].
  injection H as _ <-.
  apply ticket_is_valid_true in Hv. destruct Hv as [_ Hno].
  rewrite cancel_ticket_by_departure_date_unfold. simpl.
  destruct (find_one_exists
              (by_departure_date (tc_departure_date new_ticket))
              (ticket_collection s
               ++ [to_TicketInDB new_ticket (login_id user)])%list)
    as [t Ht].
  { exists (to_TicketInDB new_ticket (login_id user)). split.
    - apply in_or_app. right. now left.
    - unfold by_departure_date. simpl. apply String.eqb_refl. }
  rewrite Ht. f_equal.
  rewrite update_one_update_one by apply by_login_id_inc_mileage.
  rewrite update_one_id by apply inc_mileage_inverse.
  rewrite delete_one_snoc.
  - apply store_eta.
  - now apply by_date_and_owner_no_clash.
  - apply by_date_and_owner_true. reflexivity.
Qed.

Lemma book_then_cancel_restores_witness :
  create_ticket Scenario.alice Scenario.sea_lax Scenario.store
  = (Some "new ticket has added!You got 100 mileages!",
     mkStore [set_mileage 100 Scenario.alice; Scenario.bob]
             [Scenario.bob_ticket; to_TicketInDB Scenario.sea_lax "alice"]) /\
  cancel_ticket_by_departure_date "2024-06-01" Scenario.alice
    (mkStore [set_mileage 100 Scenario.alice; Scenario.bob]
             [Scenario.bob_ticket; to_TicketInDB Scenario.sea_lax "alice"])
  = (Some "Your flight on 2024-06-01 has been deleted.", Scenario.store).
Proof.
  assert (H : create_ticket Scenario.alice Scenario.sea_lax Scenario.store
              = (Some "new ticket has added!You got 100 mileages!",
                 mkStore [set_mileage 100 Scenario.alice; Scenario.bob]
                         [Scenario.bob_ticket;
                          to_TicketInDB Scenario.sea_lax "alice"]))
    by reflexivity.
  split; [exact H|].
  exact (book_then_cancel_restores _ _ _ _ _ H).
Defined.

(** ** What an operation leaves alone *)

Lemma filter_delete_one_others {D} (q p : D -> bool) (c : list D) :
  (forall d, q d = true -> p d = false) ->
  filter p (delete_one q c) = filter p c.
Proof.
  intros Hq. induction c as [|d c IH]; simpl; [reflexivity|].
  destruct (q d) eqn:E; simpl.
  - now rewrite (Hq d E).
  - now rewrite IH.
Qed.

Lemma filter_filter_others {D} (q p : D -> bool) (c : list D) :
  (forall d, p d = true -> q d = true) ->
  filter p (filter q c) = filter p c.
Proof.
  intros Hq. induction c as [|d c IH]; simpl; [reflexivity|].
  destruct (q d) eqn:E; simpl.
  - now rewrite IH.
  - destruct (p d) eqn:Ep; [|exact IH].
    rewrite (Hq d Ep) in E. discriminate E.
Qed.

Lemma delete_one_user_unfold user s :
  delete_one_user user s =
  ("Your tickets are all deleted." ++ " "
   ++ "Your account with login id: <" ++ login_id user ++ "> has been deleted!",
   mkStore (delete_one (by_login_id (login_id user))
              (update_one (by_login_id (login_id user)) (set_mileage 0)
                          (user_collection s)))
           (delete_many (by_owner (login_id user)) (ticket_collection s))).
Proof. reflexivity. Qed.

Lemma create_ticket_store user new_ticket s :
  snd (create_ticket user new_ticket s) =
  if fst (ticket_is_valid (to_TicketInDB new_ticket (login_id user)) s)
  then mkStore (update_one (by_login_id (login_id user)) (inc_mileage 100)
                           (user_collection s))
               (ticket_collection s
                ++ [to_TicketInDB new_ticket (login_id user)])
  else s.
Proof.
  rewrite create_ticket_unfold. cbv zeta.
  now destruct (fst (ticket_is_valid _ s)).
Qed.

Lemma cancel_ticket_by_departure_date_store cancel_date user s :
  snd (cancel_ticket_by_departure_date cancel_date user s) =
  match find_one (by_departure_date cancel_date) (ticket_collection s) with
  | None => s
  | Some _ =>
      mkStore (update_one (by_login_id (login_id user)) (inc_mileage (-100))
                          (user_collection s))
              (delete_one (by_date_and_owner cancel_date (login_id user))
                          (ticket_collection s))
  end.
Proof.
  rewrite cancel_ticket_by_departure_date_unfold.
  now destruct (find_one _ _).
Qed.

(** X2: booking, cancel-one, cancel-all and account deletion for one
    caller change no user record stored under another login id and no
    ticket of another owner. *)
Theorem operations_touch_only_the_caller :
  forall (user : UserInDB) (s : Store),
    let untouched s' :=
      other_users (login_id user) s' = other_users (login_id user) s /\
      other_tickets (login_id user) s' = other_tickets (login_id user) s in
    (forall new_ticket, untouched (snd (create_ticket user new_ticket s))) /\
    (forall cancel_date,
        untouched (snd (cancel_ticket_by_departure_date cancel_date user s))) /\
    untouched (snd (cancel_every_ticket user s)) /\
    untouched (snd (delete_one_user user s)).
Proof.
  intros user s untouched. subst untouched.
  unfold other_users, other_tickets, find_all.
  assert (Hown : forall d id t,
             by_date_and_owner d id t = true -> negb (by_owner id t) = false).
  { intros d id t H. unfold by_date_and_owner in H.
    apply andb_true_iff in H. unfold by_owner. now rewrite (proj2 H). }
  split; [|split; [|split]].
  - intros new_ticket. rewrite create_ticket_store.
    destruct (fst (ticket_is_valid _ s)); [|split; reflexivity].
    simpl. split.
    + apply filter_update_one_others. apply by_login_id_inc_mileage.
    + rewrite filter_app. simpl. unfold by_owner at 2. simpl.
      rewrite String.eqb_refl. simpl. apply app_nil_r.
  - intros cancel_date. rewrite cancel_ticket_by_departure_date_store.
    destruct (find_one _ _); [|split; reflexivity].
    simpl. split.
    + apply filter_update_one_others. apply by_login_id_inc_mileage.
    + apply filter_delete_one_others. apply Hown.
  - rewrite cancel_every_ticket_unfold. simpl. split.
    + apply filter_update_one_others. apply by_login_id_set_mileage.
    + unfold delete_many. apply filter_filter_others. auto.
  - rewrite delete_one_user_unfold. simpl. split.
    + rewrite filter_delete_one_others
        by (intros d H; now rewrite H).
      apply filter_update_one_others. apply by_login_id_set_mileage.
    + unfold delete_many. apply filter_filter_others. auto.
Qed.

Lemma filter_negb_empty {D} (p : D -> bool) (c : list D) :
  filter p (filter (fun d => negb (p d)) c) = [].
Proof.
  induction c as [|d c IH]; simpl; [reflexivity|].
  destruct (p d) eqn:E; simpl; [exact IH|]. now rewrite E.
Qed.

(** X3: after cancel-all the caller holds no ticket: [read_every_ticket]
    is empty and [read_all_tickets] answers with its message. *)
Theorem cancel_every_ticket_clears :
  forall (user : UserInDB) (s : Store),
    let s' := snd (cancel_every_ticket user s) in
    fst (read_every_ticket user s') = [] /\
    fst (read_all_tickets user s') = Message "You don't have any tickets!".
Proof.
  intros user s s'. subst s'. rewrite cancel_every_ticket_unfold. simpl.
  assert (E : find_all (by_owner (login_id user))
                (delete_many (by_owner (login_id user)) (ticket_collection s))
              = []) by apply filter_negb_empty.
  split; [exact E|].
  unfold read_all_tickets, read_every_ticket_dict, read_every_ticket,
    bind, tickets_find. simpl. now rewrite E.
Qed.

(** X4: when no two tickets share owner and date and the caller holds a
    ticket on [cancel_date], cancel-one succeeds, the caller holds no
    ticket on that date afterwards, the tickets left are exactly the
    others, and there is one ticket less. *)
Theorem cancel_own_ticket_removes_it :
  forall (cancel_date : string) (user : UserInDB) (s : Store),
    NoDup (map ticket_key (ticket_collection s)) ->
    owns_ticket_on (login_id user) cancel_date s ->
    exists msg s',
      cancel_ticket_by_departure_date cancel_date user s = (Some msg, s') /\
      ~ owns_ticket_on (login_id user) cancel_date s' /\
      (forall t, In t (ticket_collection s') <->
                 In t (ticket_collection s) /\
                 ticket_key t <> (login_id user, cancel_date)) /\
      S (List.length (ticket_collection s')) = List.length (ticket_collection s).
Proof.
  intros cancel_date user s Hnd [t0 [Hin0 [Hd0 Ho0]]].
  rewrite cancel_ticket_by_departure_date_unfold.
  destruct (find_one_exists (by_departure_date cancel_date) (ticket_collection s))
    as [t1 Ht1].
  { exists t0. split; [exact Hin0|]. unfold by_departure_date.
    now apply String.eqb_eq. }
  rewrite Ht1. eexists. eexists. split; [reflexivity|]. simpl.
  assert (Hkey : forall t,
             In t (delete_one (by_date_and_owner cancel_date (login_id user))
                              (ticket_collection s)) <->
             In t (ticket_collection s) /\
             ticket_key t <> (login_id user, cancel_date)).
  { intros t. apply In_delete_one_key; [|exact Hnd].
    intros x. apply by_date_and_owner_true. }
  split; [|split].
  - intros [t [Hin [Hd Ho]]]. apply Hkey in Hin. destruct Hin as [_ Hk].
    apply Hk. unfold ticket_key. now rewrite Hd, Ho.
  - exact Hkey.
  - destruct (find_one_exists
                (by_date_and_owner cancel_date (login_id user))
                (ticket_collection s)) as [t2 Ht2].
    { exists t0. split; [exact Hin0|]. apply by_date_and_owner_true.
      unfold ticket_key. now rewrite Hd0, Ho0. }
    pose proof (filter_delete_one_length (fun _ => true) _ _ _ Ht2) as Hl.
    change (filter (fun _ : TicketInDB => true)) with
      (@find_all TicketInDB (fun _ => true)) in Hl.
    rewrite !find_all_true in Hl. lia.
Qed.

Lemma cancel_own_ticket_removes_it_witness :
  NoDup (map ticket_key (ticket_collection Scenario.store)) /\
  owns_ticket_on (login_id Scenario.bob) "2024-06-01" Scenario.store /\
  exists msg s',
    cancel_ticket_by_departure_date "2024-06-01" Scenario.bob Scenario.store
    = (Some msg, s') /\
    ~ owns_ticket_on (login_id Scenario.bob) "2024-06-01" s' /\
    (forall t, In t (ticket_collection s') <->
               In t (ticket_collection Scenario.store) /\
               ticket_key t <> (login_id Scenario.bob, "2024-06-01")) /\
    S (List.length (ticket_collection s'))
    = List.length (ticket_collection Scenario.store).
Proof.
  assert (H1 : NoDup (map ticket_key (ticket_collection Scenario.store))).
  { simpl. constructor; [intros [] | constructor]. }
  assert (H2 : owns_ticket_on (login_id Scenario.bob) "2024-06-01"
                              Scenario.store).
  { exists Scenario.bob_ticket. split; [left; reflexivity|].
    split; reflexivity. }
  split; [exact H1|]. split; [exact H2|].
  exact (cancel_own_ticket_removes_it "2024-06-01" Scenario.bob
           Scenario.store H1 H2).
Defined.

(** ** Invariants of every request *)

Lemma as_user_store {A} caller (k : UserInDB -> Motor A) s :
  snd (as_user caller k s) =
  match find_one (by_login_id caller) (user_collection s) with
  | Some u => snd (k u s)
  | None => s
  end.
Proof.
  unfold as_user, bind, get_user_by_login_id, users_find_one, bind.
  destruct (find_one _ _) as [u|]; [|reflexivity].
  unfold ret. now destruct (k u s).
Qed.

Lemma create_user_store get_hashed_password new_user s :
  snd (create_user get_hashed_password new_user s) =
  match find_one (by_login_id (uc_login_id new_user)) (user_collection s),
        find_one (by_email (uc_email new_user)) (user_collection s) with
  | None, None =>
      mkStore (user_collection s ++ [stored_user get_hashed_password new_user])
              (ticket_collection s)
  | _, _ => s
  end.
Proof.
  rewrite create_user_unfold.
  destruct (find_one (by_login_id (uc_login_id new_user)) (user_collection s));
    destruct (find_one (by_email (uc_email new_user)) (user_collection s));
    reflexivity.
Qed.

Lemma find_one_by_login_id caller users u :
  find_one (by_login_id caller) users = Some u ->
  In u users /\ login_id u = caller.
Proof.
  intros H. apply find_one_some in H. destruct H as [Hin Hq].
  split; [exact Hin|]. now apply String.eqb_eq.
Qed.

Lemma not_in_map_login_id id users :
  find_one (by_login_id id) users = None -> ~ In id (map login_id users).
Proof.
  intros H Hin. rewrite find_one_none in H.
  apply in_map_iff in Hin. destruct Hin as [u [Hu Hin]].
  specialize (H u Hin). unfold by_login_id in H.
  apply String.eqb_neq in H. contradiction.
Qed.

Lemma not_in_map_email e users :
  find_one (by_email e) users = None -> ~ In e (map email users).
Proof.
  intros H Hin. rewrite find_one_none in H.
  apply in_map_iff in Hin. destruct Hin as [u [Hu Hin]].
  specialize (H u Hin). unfold by_email in H.
  apply String.eqb_neq in H. contradiction.
Qed.

Lemma register_store get_hashed_password new_user s :
  snd (run_request get_hashed_password (Register new_user) s)
  = snd (create_user get_hashed_password new_user s).
Proof.
  simpl. unfold bind, ret.
  now destruct (create_user get_hashed_password new_user s).
Qed.

(** The store after a request, case by case. *)
Ltac request_cases r s :=
  destruct r as [new_user|caller new_ticket|caller cancel_date|caller|caller];
  [ rewrite register_store, create_user_store;
    destruct (find_one (by_login_id (uc_login_id new_user))
                       (user_collection s)) eqn:Elogin;
    [|destruct (find_one (by_email (uc_email new_user))
                         (user_collection s)) eqn:Eemail]
  | cbn [run_request]; rewrite as_user_store;
    destruct (find_one (by_login_id caller) (user_collection s))
      as [u|] eqn:Ecaller;
    [rewrite create_ticket_store;
     destruct (fst (ticket_is_valid (to_TicketInDB new_ticket (login_id u)) s))
       eqn:Evalid|]
  | cbn [run_request]; rewrite as_user_store;
    destruct (find_one (by_login_id caller) (user_collection s))
      as [u|] eqn:Ecaller;
    [rewrite cancel_ticket_by_departure_date_store;
     destruct (find_one (by_departure_date cancel_date) (ticket_collection s))
       as [found|] eqn:Efound|]
  | cbn [run_request]; rewrite as_user_store;
    destruct (find_one (by_login_id caller) (user_collection s))
      as [u|] eqn:Ecaller;
    [rewrite cancel_every_ticket_unfold|]
  | cbn [run_request]; rewrite as_user_store;
    destruct (find_one (by_login_id caller) (user_collection s))
      as [u|] eqn:Ecaller;
    [rewrite delete_one_user_unfold|] ];
  cbn [snd user_collection ticket_collection].

Lemma users_unique_step get_hashed_password r s :
  users_unique s -> users_unique (snd (run_request get_hashed_password r s)).
Proof.
  intros [Hl He]. unfold users_unique.
  request_cases r s; try (split; assumption).
  - split; apply NoDup_map_snoc; try assumption.
    + now apply not_in_map_login_id.
    + now apply not_in_map_email.
  - now rewrite !map_update_one by reflexivity.
  - now rewrite !map_update_one by reflexivity.
  - now rewrite !map_update_one by reflexivity.
  - split; apply NoDup_map_delete_one;
      now rewrite map_update_one by reflexivity.
Qed.

Lemma tickets_wf_step get_hashed_password r s :
  tickets_wf s -> tickets_wf (snd (run_request get_hashed_password r s)).
Proof.
  intros [Hends Hkeys]. unfold tickets_wf.
  request_cases r s; try (split; assumption).
  - apply ticket_is_valid_true in Evalid. destruct Evalid as [Hne Hno].
    split.
    + intros t Hin. apply in_app_or in Hin.
      destruct Hin as [Hin|[<-|[]]]; [now apply Hends | exact Hne].
    + apply NoDup_map_snoc; [exact Hkeys|].
      intros Hin. apply in_map_iff in Hin. destruct Hin as [t [Hk Hin]].
      destruct (Hno t Hin). injection Hk as Ho Hd. split; assumption.
  - split.
    + intros t Hin. apply In_delete_one in Hin. now apply Hends.
    + now apply NoDup_map_delete_one.
  - split.
    + intros t Hin. apply filter_In in Hin. now apply Hends.
    + now apply NoDup_map_filter.
  - split.
    + intros t Hin. apply filter_In in Hin. now apply Hends.
    + now apply NoDup_map_filter.
Qed.

Lemma no_orphans_step get_hashed_password r s :
  no_orphans s -> no_orphans (snd (run_request get_hashed_password r s)).
Proof.
  intros H. unfold no_orphans.
  request_cases r s; try exact H.
  - intros t Hin. rewrite map_app. apply in_or_app. left. now apply H.
  - apply find_one_by_login_id in Ecaller. destruct Ecaller as [Hu Hid].
    intros t Hin. rewrite map_update_one by reflexivity.
    apply in_app_or in Hin. destruct Hin as [Hin|[<-|[]]]; [now apply H|].
    simpl. now apply in_map.
  - intros t Hin. rewrite map_update_one by reflexivity.
    apply In_delete_one in Hin. now apply H.
  - intros t Hin. rewrite map_update_one by reflexivity.
    apply filter_In in Hin. now apply H.
  - intros t Hin. apply filter_In in Hin. destruct Hin as [Hin Hown].
    specialize (H t Hin). apply in_map_iff in H.
    destruct H as [u0 [Hu0 Hin0]].
    apply in_map_iff.
    assert (Hq : by_login_id (login_id u) u0 = false).
    { unfold by_login_id, by_owner in *. rewrite Hu0.
      now apply negb_true_iff in Hown. }
    exists u0. split; [exact Hu0|].
    apply In_delete_one_keep; [|exact Hq].
    now apply In_update_one_keep.
Qed.

(** X5: in every store that a sequence of requests builds from the empty
    one, no two users share a login id or an email, every ticket has two
    different end points, no two tickets share owner and departure date,
    and the owner of every ticket is a stored user. *)
Theorem reachable_store_well_formed :
  forall (get_hashed_password : string -> string) (rs : list Request),
    let s := run_requests get_hashed_password rs empty_store in
    users_unique s /\ tickets_wf s /\ no_orphans s.
Proof.
  intros hash rs.
  assert (G : forall s0,
             users_unique s0 /\ tickets_wf s0 /\ no_orphans s0 ->
             let s := run_requests hash rs s0 in
             users_unique s /\ tickets_wf s /\ no_orphans s).
  { induction rs as [|r rs IH]; intros s0 H; [exact H|].
    simpl. apply IH. destruct H as [H1 [H2 H3]].
    split; [|split].
    - now apply users_unique_step.
    - now apply tickets_wf_step.
    - now apply no_orphans_step. }
  apply G. repeat split; simpl; try constructor; intros t [].
Qed.

(** ** The ledger *)

Lemma NoDup_map_inj {D K} (g : D -> K) (c : list D) a b :
  NoDup (map g c) -> In a c -> In b c -> g a = g b -> a = b.
Proof.
  induction c as [|x c IH]; simpl; [tauto|].
  intros Hnd Ha Hb Hg. inversion Hnd as [|? ? Hnin Hnd']; subst.
  destruct Ha as [->|Ha], Hb as [->|Hb]; auto.
  - destruct Hnin. rewrite Hg. now apply in_map.
  - destruct Hnin. rewrite <- Hg. now apply in_map.
Qed.

Lemma In_update_one_found {D} (q : D -> bool) f c d :
  find_one q c = Some d -> In (f d) (update_one q f c).
Proof.
  unfold find_one. induction c as [|x c IH]; simpl; [discriminate|].
  destruct (q x).
  - intros [= ->]. now left.
  - intros H. right. auto.
Qed.

Lemma ledger_update_one users id f (held held' : string -> nat) :
  NoDup (map login_id users) ->
  (forall x, login_id (f x) = login_id x) ->
  (forall x, In x users -> mileage x = 100 * Z.of_nat (held (login_id x))) ->
  (forall x, In x users -> login_id x = id ->
             mileage (f x) = 100 * Z.of_nat (held' id)) ->
  (forall id', id' <> id -> held' id' = held id') ->
  forall u, In u (update_one (by_login_id id) f users) ->
            mileage u = 100 * Z.of_nat (held' (login_id u)).
Proof.
  intros Hnd Hf Hold Hnew Hother u Hin.
  assert (Hnd' : NoDup (map login_id (update_one (by_login_id id) f users)))
    by (now rewrite map_update_one).
  destruct (String.eqb (login_id u) id) eqn:E.
  - apply String.eqb_eq in E.
    destruct (In_update_one _ _ _ _ Hin) as [Hu|[d0 [Hd0 [Hq ->]]]].
    + destruct (find_one_exists (by_login_id id) users) as [d0 Hd0].
      { exists u. split; [exact Hu|]. unfold by_login_id.
        now apply String.eqb_eq. }
      pose proof (In_update_one_found _ f _ _ Hd0) as Hfd.
      apply find_one_by_login_id in Hd0. destruct Hd0 as [Hd0 Hid].
      assert (u = f d0).
      { apply (NoDup_map_inj login_id _ _ _ Hnd' Hin Hfd).
        rewrite Hf. congruence. }
      subst u. rewrite Hf, Hid. now apply Hnew.
    + rewrite Hf. unfold by_login_id in Hq. apply String.eqb_eq in Hq.
      rewrite Hq. now apply Hnew.
  - apply String.eqb_neq in E.
    destruct (In_update_one _ _ _ _ Hin) as [Hu|[d0 [Hd0 [Hq ->]]]].
    + rewrite (Hother _ E). now apply Hold.
    + rewrite Hf in E. unfold by_login_id in Hq. apply String.eqb_eq in Hq.
      contradiction.
Qed.

Lemma held_snoc id tickets t :
  List.length (find_all (by_owner id) (tickets ++ [t]))
  = (List.length (find_all (by_owner id) tickets)
     + (if String.eqb (owner_login_id t) id then 1 else 0))%nat.
Proof.
  unfold find_all. rewrite filter_app, length_app. simpl.
  unfold by_owner at 2. now destruct (String.eqb (owner_login_id t) id).
Qed.

Lemma held_after_cancel_all id id' tickets :
  List.length (find_all (by_owner id') (delete_many (by_owner id) tickets))
  = if String.eqb id' id then O
    else List.length (find_all (by_owner id') tickets).
Proof.
  unfold find_all, delete_many.
  destruct (String.eqb id' id) eqn:E.
  - apply String.eqb_eq in E. subst id'. now rewrite filter_negb_empty.
  - apply String.eqb_neq in E. rewrite filter_filter_others; [reflexivity|].
    intros t Ht. unfold by_owner in *. apply String.eqb_eq in Ht.
    apply negb_true_iff. apply String.eqb_neq. congruence.
Qed.

Lemma held_none id s :
  no_orphans s -> ~ In id (map login_id (user_collection s)) ->
  tickets_held id s = O.
Proof.
  intros Hno Hnin. unfold tickets_held, find_all.
  destruct (filter (by_owner id) (ticket_collection s)) as [|t l] eqn:E;
    [reflexivity|].
  assert (Hin : In t (filter (by_owner id) (ticket_collection s)))
    by (rewrite E; now left).
  apply filter_In in Hin. destruct Hin as [Hin Ho].
  unfold by_owner in Ho. apply String.eqb_eq in Ho.
  destruct Hnin. rewrite <- Ho. now apply Hno.
Qed.

Lemma ledger_ok_step get_hashed_password r s :
  users_unique s -> no_orphans s -> ledger_ok s -> owned_cancel r s ->
  ledger_ok (snd (run_request get_hashed_password r s)).
Proof.
  intros [Hnd _] Hno Hled Hown. unfold ledger_ok, tickets_held.
  request_cases r s; try exact Hled.
  - (* a new user: no ticket bears the new login id *)
    intros u Hin. apply in_app_or in Hin. destruct Hin as [Hin|[<-|[]]].
    + now apply Hled.
    + cbn [stored_user login_id mileage ticket_collection].
      apply not_in_map_login_id in Elogin.
      pose proof (held_none _ _ Hno Elogin) as H0.
      unfold tickets_held in H0. now rewrite H0.
  - (* a booking *)
    apply find_one_by_login_id in Ecaller. destruct Ecaller as [_ Hid].
    apply (ledger_update_one _ _ _
             (fun id => List.length (find_all (by_owner id) (ticket_collection s)))
             (fun id => List.length
                          (find_all (by_owner id)
                             (ticket_collection s
                              ++ [to_TicketInDB new_ticket (login_id u)]))));
      try assumption; try reflexivity.
    + intros x Hx Hxid. rewrite held_snoc.
      cbn [to_TicketInDB owner_login_id]. rewrite String.eqb_refl.
      unfold inc_mileage. cbn [mileage set_mileage].
      specialize (Hled x Hx). unfold tickets_held in Hled.
      rewrite Hxid in Hled. lia.
    + intros id' Hne. rewrite held_snoc.
      cbn [to_TicketInDB owner_login_id].
      apply String.eqb_neq in Hne. rewrite String.eqb_sym in Hne.
      rewrite Hne. lia.
  - (* a cancel-one on a date the caller holds *)
    apply find_one_by_login_id in Ecaller. destruct Ecaller as [_ Hid].
    simpl in Hown. destruct Hown as [t0 [Hin0 [Hd0 Ho0]]].
    destruct (find_one_exists
                (by_date_and_owner cancel_date (login_id u))
                (ticket_collection s)) as [t2 Ht2].
    { exists t0. split; [exact Hin0|]. apply by_date_and_owner_true.
      unfold ticket_key. now rewrite Hd0, Ho0, Hid. }
    assert (Ho2 : owner_login_id t2 = login_id u).
    { apply find_one_some in Ht2. destruct Ht2 as [_ Hq].
      apply by_date_and_owner_true in Hq. now injection Hq. }
    assert (Hlen : forall id,
               List.length (find_all (by_owner id) (ticket_collection s))
               = (List.length
                    (find_all (by_owner id)
                       (delete_one (by_date_and_owner cancel_date (login_id u))
                                   (ticket_collection s)))
                  + (if String.eqb (login_id u) id then 1 else 0))%nat).
    { intros id. unfold find_all.
      rewrite (filter_delete_one_length (by_owner id) _ _ _ Ht2).
      replace (by_owner id t2) with (String.eqb (login_id u) id)
        by (unfold by_owner; now rewrite Ho2).
      reflexivity. }
    apply (ledger_update_one _ _ _
             (fun id => List.length (find_all (by_owner id) (ticket_collection s)))
             (fun id => List.length
                          (find_all (by_owner id)
                             (delete_one
                                (by_date_and_owner cancel_date (login_id u))
                                (ticket_collection s)))));
      try assumption; try reflexivity.
    + intros x Hx Hxid. specialize (Hled x Hx). unfold tickets_held in Hled.
      rewrite Hxid, Hlen, String.eqb_refl in Hled.
      unfold inc_mileage. cbn [mileage set_mileage]. lia.
    + intros id' Hne. rewrite (Hlen id').
      apply String.eqb_neq in Hne. rewrite String.eqb_sym in Hne.
      rewrite Hne. lia.
  - (* cancel-all *)
    apply (ledger_update_one _ _ _
             (fun id => List.length (find_all (by_owner id) (ticket_collection s)))
             (fun id => List.length
                          (find_all (by_owner id)
                             (delete_many (by_owner (login_id u))
                                          (ticket_collection s)))));
      try assumption; try reflexivity.
    + intros x Hx Hxid. rewrite held_after_cancel_all, String.eqb_refl.
      reflexivity.
    + intros id' Hne. rewrite held_after_cancel_all.
      apply String.eqb_neq in Hne. now rewrite Hne.
  - (* account deletion *)
    intros x Hx. apply In_delete_one in Hx. revert x Hx.
    apply (ledger_update_one _ _ _
             (fun id => List.length (find_all (by_owner id) (ticket_collection s)))
             (fun id => List.length
                          (find_all (by_owner id)
                             (delete_many (by_owner (login_id u))
                                          (ticket_collection s)))));
      try assumption; try reflexivity.
    + intros x Hx Hxid. rewrite held_after_cancel_all, String.eqb_refl.
      reflexivity.
    + intros id' Hne. rewrite held_after_cancel_all.
      apply String.eqb_neq in Hne. now rewrite Hne.
Qed.

Lemma ledger_ok_nonneg s : ledger_ok s -> mileage_nonneg s.
Proof. intros H u Hu. rewrite (H u Hu). lia. Qed.

(** X6: along a sequence of requests in which every cancel-one names a
    date on which its caller holds a ticket at that moment, each stored
    user's mileage is 100 times the number of tickets that user holds; in
    particular no mileage is negative. *)
Theorem ledger_matches_tickets :
  forall (get_hashed_password : string -> string) (rs : list Request),
    owned_cancels get_hashed_password rs empty_store ->
    ledger_ok (run_requests get_hashed_password rs empty_store) /\
    mileage_nonneg (run_requests get_hashed_password rs empty_store).
Proof.
  intros hash rs.
  assert (G : forall s0,
             users_unique s0 -> tickets_wf s0 -> no_orphans s0 ->
             ledger_ok s0 -> owned_cancels hash rs s0 ->
             ledger_ok (run_requests hash rs s0)).
  { induction rs as [|r rs IH]; intros s0 H1 H2 H3 H4 Hc; [exact H4|].
    simpl in *. destruct Hc as [Hr Hc]. apply IH; try assumption.
    - now apply users_unique_step.
    - now apply tickets_wf_step.
    - now apply no_orphans_step.
    - now apply ledger_ok_step. }
  intros Hrs.
  assert (L : ledger_ok (run_requests hash rs empty_store)).
  { apply G; try assumption.
    - split; constructor.
    - split; [intros t []|constructor].
    - intros t [].
    - intros u []. }
  split; [exact L | now apply ledger_ok_nonneg].
Qed.

Lemma ledger_matches_tickets_witness :
  owned_cancels ToyJose.hash
    [Register Scenario.alice_form; Book "alice" Scenario.sea_lax;
     CancelOne "alice" "2024-06-01"] empty_store /\
  mileage_nonneg
    (run_requests ToyJose.hash
       [Register Scenario.alice_form; Book "alice" Scenario.sea_lax;
        CancelOne "alice" "2024-06-01"] empty_store).
Proof.
  assert (H : owned_cancels ToyJose.hash
                [Register Scenario.alice_form; Book "alice" Scenario.sea_lax;
                 CancelOne "alice" "2024-06-01"] empty_store).
  { simpl. repeat split.
    exists (to_TicketInDB Scenario.sea_lax "alice").
    split; [left; reflexivity|]. split; reflexivity. }
  split; [exact H|].
  exact (proj2 (ledger_matches_tickets ToyJose.hash _ H)).
Defined.

(** ** Resolving a token, in general *)

(** X7: [get_current_user_by_token] leaves the store as it is, and what
    it answers is fixed by what [jwt.decode] gives for the token without
    its prefix.  A [JWTError] (expiry and bad claims included), a payload
    without [sub] and a [sub] under which no user is stored all end in the
    one 401 [credential_exception]; a payload whose [sub] is the login id
    of a stored user ends in that user; an exception outside the [JWTError]
    family is not caught and leaves the function as it came: these are the
    only three outcomes. *)
Theorem get_current_user_by_token_outcomes :
  forall (jwt_decode : string -> string -> string -> Z -> JoseError + Claims)
         (token : string) (now : Z) (s : Store),
    let decoded :=
      jwt_decode (replace "Bearer " "" token) SECRET_KEY ALGORITHM now in
    let answer := fst (get_current_user_by_token jwt_decode token now s) in
    snd (get_current_user_by_token jwt_decode token now s) = s /\
    (forall e, decoded = inl e ->
               answer = if isinstance_JWTError e
                        then inl (Http credential_exception)
                        else inl (Jose e)) /\
    (forall payload, decoded = inr payload -> sub payload = None ->
                     answer = inl (Http credential_exception)) /\
    (forall payload id, decoded = inr payload -> sub payload = Some id ->
                        find_one (by_login_id id) (user_collection s) = None ->
                        answer = inl (Http credential_exception)) /\
    (forall payload id u, decoded = inr payload -> sub payload = Some id ->
                          find_one (by_login_id id) (user_collection s) = Some u ->
                          answer = inr u /\ In u (user_collection s) /\
                          login_id u = id) /\
    (answer = inl (Http credential_exception) \/
     (exists u payload,
         answer = inr u /\ In u (user_collection s) /\
         decoded = inr payload /\ sub payload = Some (login_id u)) \/
     (exists e,
         answer = inl (Jose e) /\ decoded = inl e /\
         isinstance_JWTError e = false)).
Proof.
  intros jwt_decode token now s decoded answer.
  split; [apply get_current_user_by_token_store|].
  assert (Herr : forall e, decoded = inl e ->
                   answer = if isinstance_JWTError e
                            then inl (Http credential_exception)
                            else inl (Jose e)).
  { intros e Hd. subst answer. unfold get_current_user_by_token.
    fold decoded. rewrite Hd. now destruct (isinstance_JWTError e). }
  assert (Hnosub : forall payload, decoded = inr payload ->
                     sub payload = None ->
                     answer = inl (Http credential_exception)).
  { intros payload Hd Hs. subst answer. unfold get_current_user_by_token.
    fold decoded. now rewrite Hd, Hs. }
  assert (Hsub : forall payload id, decoded = inr payload ->
                   sub payload = Some id ->
                   answer = match find_one (by_login_id id) (user_collection s)
                            with
                            | Some u => inr u
                            | None => inl (Http credential_exception)
                            end).
  { intros payload id Hd Hs. subst answer.
    now rewrite (get_current_user_by_token_decoded _ _ _ _ _ _ Hd Hs). }
  split; [exact Herr|]. split; [exact Hnosub|]. split; [|split].
  - intros payload id Hd Hs Hu. now rewrite (Hsub _ _ Hd Hs), Hu.
  - intros payload id u Hd Hs Hu. rewrite (Hsub _ _ Hd Hs), Hu.
    apply find_one_by_login_id in Hu. tauto.
  - destruct decoded as [e|payload] eqn:Hd.
    + rewrite (Herr e eq_refl).
      destruct (isinstance_JWTError e) eqn:He; [now left|].
      right. right. exists e. auto.
    + destruct (sub payload) as [id|] eqn:Hs.
      * rewrite (Hsub _ _ eq_refl Hs).
        destruct (find_one (by_login_id id) (user_collection s)) as [u|] eqn:Hu;
          [|now left].
        right. left. exists u, payload.
        apply find_one_by_login_id in Hu. destruct Hu as [Hin Hid].
        rewrite Hid. auto.
      * left. now apply (Hnosub payload).
Qed.

Lemma resolve_with_bearer_prefix jwt_decode token now s :
  contains_char " " token = false ->
  get_current_user_by_token jwt_decode ("Bearer " ++ token) now s
  = get_current_user_by_token jwt_decode token now s.
Proof.
  intros H. unfold get_current_user_by_token.
  now rewrite (replace_Bearer_prefixed _ H), (replace_Bearer_absent _ H).
Qed.

(** X8: a token without a space is resolved the same way with and without
    the "Bearer " prefix that the cookie carries. *)
Theorem bearer_prefix_is_dropped :
  forall (jwt_decode : string -> string -> string -> Z -> JoseError + Claims)
         (token : string) (now : Z) (s : Store),
    contains_char " " token = false ->
    get_current_user_by_token jwt_decode ("Bearer " ++ token) now s
    = get_current_user_by_token jwt_decode token now s.
Proof.
  intros jwt_decode token now s H.
  now apply resolve_with_bearer_prefix.
Qed.

Lemma bearer_prefix_is_dropped_witness :
  contains_char " " Scenario.alice_token = false /\
  get_current_user_by_token ToyJose.decode ("Bearer " ++ Scenario.alice_token)
                            100 Scenario.store
  = get_current_user_by_token ToyJose.decode Scenario.alice_token
                              100 Scenario.store.
Proof.
  assert (H : contains_char " " Scenario.alice_token = false)
    by (vm_compute; reflexivity).
  split; [exact H|].
  exact (bearer_prefix_is_dropped ToyJose.decode Scenario.alice_token 100
           Scenario.store H).
Defined.

(** ** The numbered tickets *)

Lemma str_inj a b : str a = str b -> a = b.
Proof.
  unfold str. intros H.
  apply (f_equal NilEmpty.uint_of_string) in H.
  rewrite !NilEmpty.usu in H. injection H as H.
  apply (f_equal Nat.of_uint) in H. now rewrite !Unsigned.of_to in H.
Qed.

Lemma ticket_key_of_inj a b : ticket_key_of a = ticket_key_of b -> a = b.
Proof.
  unfold ticket_key_of. simpl. intros H. injection H as H.
  now apply str_inj.
Qed.

Lemma dict_set_fresh {V} k (v : V) d :
  ~ In k (map fst d) -> dict_set k v d = (d ++ [(k, v)])%list.
Proof.
  induction d as [|[k' v'] d IH]; simpl; intros H; [reflexivity|].
  destruct (String.eqb k' k) eqn:E.
  - apply String.eqb_eq in E. tauto.
  - f_equal. apply IH. tauto.
Qed.

Lemma number_tickets_spec tickets :
  forall index ticket_dict,
    (forall j, (index <= j)%nat ->
               ~ In (ticket_key_of j) (map fst ticket_dict)) ->
    number_tickets tickets index ticket_dict
    = (ticket_dict
       ++ combine (map ticket_key_of (seq index (List.length tickets)))
                  tickets)%list.
Proof.
  induction tickets as [|t rest IH]; intros index d Hfresh; simpl.
  - now rewrite app_nil_r.
  - fold (ticket_key_of index).
    rewrite dict_set_fresh by (apply Hfresh; lia).
    rewrite IH.
    + now rewrite <- app_assoc.
    + intros j Hj. rewrite map_app, in_app_iff. simpl.
      intros [Hin|[Hk|[]]].
      * apply (Hfresh j); [lia | exact Hin].
      * apply ticket_key_of_inj in Hk. lia.
Qed.

(** X9: [read_every_ticket] numbers the caller's tickets from 1 in the
    order of the collection: the dictionary holds, under "Ticket 1",
    "Ticket 2", ..., exactly the tickets owned by the caller, none lost to
    a repeated key; [read_all_tickets] answers with its message exactly
    when the caller owns no ticket. *)
Theorem read_every_ticket_numbering :
  forall (user : UserInDB) (s : Store),
    let mine := find_all (by_owner (login_id user)) (ticket_collection s) in
    read_every_ticket_dict user s
    = (combine (map (fun i => "Ticket " ++ str i) (seq 1 (List.length mine)))
               mine, s) /\
    (fst (read_all_tickets user s) = Message "You don't have any tickets!"
     <-> mine = []) /\
    (forall t, In t mine <-> In t (ticket_collection s) /\
                             owner_login_id t = login_id user).
Proof.
  intros user s mine.
  assert (E : read_every_ticket_dict user s
              = (combine (map ticket_key_of (seq 1 (List.length mine))) mine, s)).
  { unfold read_every_ticket_dict, read_every_ticket, bind, tickets_find, ret.
    fold mine. rewrite number_tickets_spec by (intros j _ []).
    reflexivity. }
  split; [exact E|]. split.
  - unfold read_all_tickets, bind. rewrite E.
    destruct mine as [|t rest]; simpl; split; try reflexivity; discriminate.
  - intros t. subst mine. unfold find_all. rewrite filter_In.
    unfold by_owner. now rewrite String.eqb_eq.
Qed.

(** ** Sessions *)

Lemma find_one_delete_one_unique users id :
  NoDup (map login_id users) ->
  find_one (by_login_id id) (delete_one (by_login_id id) users) = None.
Proof.
  intros Hnd. apply find_one_none. intros u Hin.
  destruct (by_login_id id u) eqn:E; [|reflexivity].
  assert (Hk : login_id u <> id).
  { apply (In_delete_one_key login_id (by_login_id id) id users u);
      [|exact Hnd|exact Hin].
    intros x. unfold by_login_id. apply String.eqb_eq. }
  unfold by_login_id in E. apply String.eqb_eq in E. contradiction.
Qed.

Lemma find_one_snoc_fresh {D} (q : D -> bool) (c : list D) (d : D) :
  find_one q c = None -> q d = true -> find_one q (c ++ [d]) = Some d.
Proof.
  unfold find_one. induction c as [|x c IH]; simpl; intros Hn Hd.
  - now rewrite Hd.
  - destruct (q x); [discriminate Hn | auto].
Qed.

Section SessionLaws.
Variable jwt_encode : Claims -> string -> string -> string.
Variable jwt_decode : string -> string -> string -> Z -> JoseError + Claims.
Variable check_password : string -> string -> bool.

Hypothesis decode_encode :
  forall c now,
    jwt_decode (jwt_encode c SECRET_KEY ALGORITHM) SECRET_KEY ALGORITHM now
    = validate_claims c now.
Hypothesis token_no_space :
  forall c, contains_char " " (jwt_encode c SECRET_KEY ALGORITHM) = false.

Let issue (id : string) (expires_delta : option Z) (issued : Z) : string :=
  create_access_token jwt_encode (mkClaims (Some id) None) expires_delta issued.

Lemma issued_no_space id expires_delta issued :
  contains_char " " (issue id expires_delta issued) = false.
Proof.
  unfold issue. rewrite create_access_token_claims. apply token_no_space.
Qed.

Lemma strip_issued id expires_delta issued bearer :
  bearer = "" \/ bearer = "Bearer " ->
  replace "Bearer " "" (bearer ++ issue id expires_delta issued)
  = issue id expires_delta issued.
Proof.
  intros [-> | ->].
  - apply replace_Bearer_absent, issued_no_space.
  - apply replace_Bearer_prefixed, issued_no_space.
Qed.

Lemma decode_issued_token id expires_delta issued now :
  jwt_decode (issue id expires_delta issued) SECRET_KEY ALGORITHM now
  = if expiry expires_delta issued <? now then inl ExpiredSignatureError
    else inr (mkClaims (Some id) (Some (expiry expires_delta issued))).
Proof.
  unfold issue. rewrite create_access_token_claims, decode_encode.
  reflexivity.
Qed.

Lemma resolve_issued id expires_delta issued now s :
  get_current_user_by_token jwt_decode (issue id expires_delta issued) now s
  = (if expiry expires_delta issued <? now
     then inl (Http credential_exception)
     else match find_one (by_login_id id) (user_collection s) with
          | Some u => inr u
          | None => inl (Http credential_exception)
          end, s).
Proof.
  pose proof (decode_issued_token id expires_delta issued now) as Hd.
  rewrite <- (replace_Bearer_absent _ (issued_no_space id expires_delta issued))
    in Hd at 1.
  destruct (expiry expires_delta issued <? now).
  - exact (get_current_user_by_token_raised _ _ _ _ _ Hd eq_refl).
  - exact (get_current_user_by_token_decoded _ _ _ _ _ id Hd eq_refl).
Qed.

(** X10: the home page tells an expired token apart.  Without a cookie it
    asks to sign up or log in.  With the token of a stored user it greets
    that user while both clock readings are within the expiry, reports
    the expiry once the first reading is past it, and raises the 401 of
    [get_current_user_by_token] when the token expires between the two
    readings. *)
Theorem index_tells_expiry_apart :
  forall (s : Store) (id : string) (u : UserInDB)
         (expires_delta : option Z) (issued now1 now2 : Z) (bearer : string),
    find_one (by_login_id id) (user_collection s) = Some u ->
    bearer = "" \/ bearer = "Bearer " ->
    now1 <= now2 ->
    let cookie := bearer ++ issue id expires_delta issued in
    index jwt_decode None now1 now2 s
    = (inr (mkIndexPage "Sign up or Login!" true), s) /\
    (now2 <= expiry expires_delta issued ->
     index jwt_decode (Some cookie) now1 now2 s
     = (inr (mkIndexPage ("Hello, " ++ id ++ ".") false), s)) /\
    (expiry expires_delta issued < now1 ->
     index jwt_decode (Some cookie) now1 now2 s
     = (inr (mkIndexPage "Your token has expired. Login again!" true), s)) /\
    (now1 <= expiry expires_delta issued < now2 ->
     index jwt_decode (Some cookie) now1 now2 s
     = (inl (Http credential_exception), s)).
Proof.
  intros s id u expires_delta issued now1 now2 bearer Hu Hb Hle cookie.
  split; [reflexivity|].
  assert (Hidx : index jwt_decode (Some cookie) now1 now2 s =
                 if expiry expires_delta issued <? now1
                 then (inr (mkIndexPage "Your token has expired. Login again!"
                                        true), s)
                 else if expiry expires_delta issued <? now2
                      then (inl (Http credential_exception), s)
                      else (inr (mkIndexPage ("Hello, " ++ login_id u ++ ".")
                                             false), s)).
  { unfold index, cookie. rewrite (strip_issued _ _ _ _ Hb).
    rewrite decode_issued_token.
    destruct (expiry expires_delta issued <? now1); [reflexivity|].
    unfold bind. rewrite resolve_issued, Hu.
    destruct (expiry expires_delta issued <? now2); reflexivity. }
  apply find_one_by_login_id in Hu. destruct Hu as [_ Hid].
  rewrite Hidx, Hid.
  split; [|split]; intros Ht.
  - assert (E1 : (expiry expires_delta issued <? now1) = false)
      by (apply Z.ltb_ge; lia).
    assert (E2 : (expiry expires_delta issued <? now2) = false)
      by (apply Z.ltb_ge; lia).
    now rewrite E1, E2.
  - assert (E1 : (expiry expires_delta issued <? now1) = true)
      by (apply Z.ltb_lt; lia).
    now rewrite E1.
  - assert (E1 : (expiry expires_delta issued <? now1) = false)
      by (apply Z.ltb_ge; lia).
    assert (E2 : (expiry expires_delta issued <? now2) = true)
      by (apply Z.ltb_lt; lia).
    now rewrite E1, E2.
Qed.

Lemma authenticate_user_unfold username password s :
  authenticate_user check_password username password s =
  (match find_one (by_login_id username) (user_collection s) with
   | Some u => if check_password password (hashed_password u)
               then Some u else None
   | None => None
   end, s).
Proof.
  unfold authenticate_user, bind, get_user_by_login_id, users_find_one, bind.
  destruct (find_one _ _) as [u|]; [|reflexivity].
  unfold ret. now destruct (check_password _ _).
Qed.

(** X11: logging in.  An unknown login id and a wrong password are both
    answered with the same 401 and no cookie.  A stored login id with the
    password that verifies against the stored hash is answered with a
    redirect and the cookie "Bearer <token>", the token being the one
    [create_access_token] issues for the login id with ten minutes to
    live; that cookie resolves to the user at every clock reading up to
    ten minutes after the login and to the 401 after that.  The store is
    the same in every case. *)
Theorem login_result_session :
  forall (s : Store) (username password : string) (now : Z),
    let rejected :=
      (inl (Http (mkHTTPException HTTP_401_UNAUTHORIZED
                    "Incorrect Login ID or Password." [])), s) in
    (find_one (by_login_id username) (user_collection s) = None ->
     login_result jwt_encode check_password username password now s
     = rejected) /\
    (forall u,
        find_one (by_login_id username) (user_collection s) = Some u ->
        check_password password (hashed_password u) = false ->
        login_result jwt_encode check_password username password now s
        = rejected) /\
    (forall u,
        find_one (by_login_id username) (user_collection s) = Some u ->
        check_password password (hashed_password u) = true ->
        exists cookie,
          cookie = "Bearer " ++ issue (login_id u)
                                  (Some (minutes ACCESS_TOKEN_EXPIRE_MINUTES))
                                  now /\
          login_result jwt_encode check_password username password now s
          = (inr (RedirectResponse "/index" HTTP_302_FOUND,
                  SetCookie "access_token" cookie true), s) /\
          (forall later, later <= now + 600 ->
             get_current_user_by_token jwt_decode cookie later s = (inr u, s)) /\
          (forall later, now + 600 < later ->
             get_current_user_by_token jwt_decode cookie later s
             = (inl (Http credential_exception), s))).
Proof.
  intros s username password now rejected. subst rejected.
  unfold login_result, login_for_access_token, bind.
  rewrite authenticate_user_unfold.
  split; [|split].
  - intros Hn. now rewrite Hn.
  - intros u Hu Hp. now rewrite Hu, Hp.
  - intros u Hu Hp. rewrite Hu, Hp.
    eexists. split; [reflexivity|]. split; [reflexivity|].
    pose proof (find_one_by_login_id _ _ _ Hu) as [_ Hid].
    fold (issue (login_id u) (Some (minutes ACCESS_TOKEN_EXPIRE_MINUTES)) now).
    assert (Hx : expiry (Some (minutes ACCESS_TOKEN_EXPIRE_MINUTES)) now
                 = now + 600) by reflexivity.
    split; intros later Hl.
    + rewrite resolve_with_bearer_prefix by apply issued_no_space.
      rewrite resolve_issued, Hx, Hid, Hu.
      assert (E : (now + 600 <? later) = false) by (apply Z.ltb_ge; lia).
      now rewrite E.
    + rewrite resolve_with_bearer_prefix by apply issued_no_space.
      rewrite resolve_issued, Hx.
      assert (E : (now + 600 <? later) = true) by (apply Z.ltb_lt; lia).
      now rewrite E.
Qed.

(** X12: deleting the account.  With the cookie of a stored user, not yet
    expired, in a store where login ids are not repeated, the handler
    redirects and deletes the cookie; afterwards no user is stored under
    that login id, no ticket bears it as owner, and the same cookie,
    whenever it is presented again, is answered with the 401. *)
Theorem deleted_account_token_rejected :
  forall (s : Store) (id : string) (u : UserInDB)
         (expires_delta : option Z) (issued now : Z),
    NoDup (map login_id (user_collection s)) ->
    find_one (by_login_id id) (user_collection s) = Some u ->
    now <= expiry expires_delta issued ->
    let cookie := "Bearer " ++ issue id expires_delta issued in
    exists s',
      delete_one_user_post jwt_decode cookie now s
      = (inr (RedirectResponse "/index" HTTP_302_FOUND,
              DeleteCookie "access_token"), s') /\
      find_one (by_login_id id) (user_collection s') = None /\
      find_all (by_owner id) (ticket_collection s') = [] /\
      forall later,
        get_current_user_by_token jwt_decode cookie later s'
        = (inl (Http credential_exception), s').
Proof.
  intros s id u expires_delta issued now Hnd Hu Ht cookie.
  pose proof (find_one_by_login_id _ _ _ Hu) as [_ Hid].
  assert (E : (expiry expires_delta issued <? now) = false)
    by (apply Z.ltb_ge; lia).
  unfold delete_one_user_post, bind, cookie.
  rewrite resolve_with_bearer_prefix by apply issued_no_space.
  rewrite resolve_issued, E, Hu.
  destruct (delete_one_user u s) as [m s'] eqn:Hdel.
  rewrite delete_one_user_unfold in Hdel. injection Hdel as _ Hs'.
  exists s'. split; [reflexivity|].
  assert (Hnone : find_one (by_login_id id) (user_collection s') = None).
  { subst s'. simpl. rewrite Hid. apply find_one_delete_one_unique.
    now rewrite map_update_one. }
  split; [exact Hnone|]. split.
  - subst s'. simpl. rewrite Hid. apply filter_negb_empty.
  - intros later.
    rewrite resolve_with_bearer_prefix by apply issued_no_space.
    rewrite resolve_issued, Hnone.
    now destruct (expiry expires_delta issued <? later).
Qed.
Variable get_hashed_password : string -> string.

(** [pwd_context.verify] accepts a password against its own hash. *)
Hypothesis verify_hash :
  forall password, check_password password (get_hashed_password password) = true.

(** X13: registering and then logging in.  After a registration that was
    accepted, the login id and password of the form log in: the handler
    sets a cookie, and the cookie resolves to the record that the
    registration stored. *)
Theorem register_then_login :
  forall (s : Store) (new_user : UserCreate) (now : Z),
    ~ login_id_taken (uc_login_id new_user) s ->
    ~ email_taken (uc_email new_user) s ->
    let s' := snd (create_user get_hashed_password new_user s) in
    exists cookie,
      login_result jwt_encode check_password
                   (uc_login_id new_user) (uc_password new_user) now s'
      = (inr (RedirectResponse "/index" HTTP_302_FOUND,
              SetCookie "access_token" cookie true), s') /\
      get_current_user_by_token jwt_decode cookie now s'
      = (inr (stored_user get_hashed_password new_user), s').
Proof.
  intros s new_user now Hl He s'.
  rewrite login_id_taken_find in Hl. rewrite email_taken_find in He.
  apply not_taken_find_none in Hl, He.
  assert (Hs' : s' = mkStore (user_collection s
                              ++ [stored_user get_hashed_password new_user])
                             (ticket_collection s)).
  { subst s'. now rewrite create_user_store, Hl, He. }
  assert (Hu : find_one (by_login_id (uc_login_id new_user)) (user_collection s')
               = Some (stored_user get_hashed_password new_user)).
  { rewrite Hs'. simpl. apply find_one_snoc_fresh; [exact Hl|].
    unfold by_login_id. simpl. apply String.eqb_refl. }
  clearbody s'. clear Hs'.
  unfold login_result, login_for_access_token, bind.
  rewrite authenticate_user_unfold, Hu.
  cbn [hashed_password stored_user]. rewrite verify_hash.
  eexists. split; [reflexivity|].
  change (login_id (stored_user get_hashed_password new_user))
    with (uc_login_id new_user).
  fold (issue (uc_login_id new_user)
              (Some (minutes ACCESS_TOKEN_EXPIRE_MINUTES)) now).
  rewrite resolve_with_bearer_prefix by apply issued_no_space.
  rewrite resolve_issued, Hu.
  assert (E : (expiry (Some (minutes ACCESS_TOKEN_EXPIRE_MINUTES)) now <? now)
              = false).
  { apply Z.ltb_ge. unfold expiry, minutes, ACCESS_TOKEN_EXPIRE_MINUTES.
    simpl. lia. }
  now rewrite E.
Qed.
End SessionLaws.

Lemma toy_decode_encode :
  forall c now,
    ToyJose.decode (ToyJose.encode c SECRET_KEY ALGORITHM)
                   SECRET_KEY ALGORITHM now
    = validate_claims c now.
Proof. intros. apply ToyJoseFacts.decode_encode. Qed.

Lemma toy_no_space :
  forall c, contains_char " " (ToyJose.encode c SECRET_KEY ALGORITHM) = false.
Proof. intros. apply ToyJoseFacts.encode_no_space. Qed.

Lemma index_tells_expiry_apart_witness :
  find_one (by_login_id "alice") (user_collection Scenario.store)
  = Some Scenario.alice /\
  100 <= 200 /\
  index ToyJose.decode (Some ("Bearer " ++ Scenario.alice_token)) 100 200
        Scenario.store
  = (inr (mkIndexPage "Hello, alice." false), Scenario.store) /\
  index ToyJose.decode (Some ("Bearer " ++ Scenario.alice_token)) 601 601
        Scenario.store
  = (inr (mkIndexPage "Your token has expired. Login again!" true),
     Scenario.store) /\
  index ToyJose.decode (Some ("Bearer " ++ Scenario.alice_token)) 600 601
        Scenario.store
  = (inl (Http credential_exception), Scenario.store).
Proof.
  assert (Hu : find_one (by_login_id "alice") (user_collection Scenario.store)
               = Some Scenario.alice) by reflexivity.
  split; [exact Hu|]. split; [lia|].
  split; [|split].
  - apply (index_tells_expiry_apart ToyJose.encode ToyJose.decode
             toy_decode_encode toy_no_space Scenario.store "alice"
             Scenario.alice (Some 600) 0 100 200 "Bearer " Hu
             (or_intror eq_refl)); unfold expiry; simpl; lia.
  - apply (index_tells_expiry_apart ToyJose.encode ToyJose.decode
             toy_decode_encode toy_no_space Scenario.store "alice"
             Scenario.alice (Some 600) 0 601 601 "Bearer " Hu
             (or_intror eq_refl)); unfold expiry; simpl; lia.
  - apply (index_tells_expiry_apart ToyJose.encode ToyJose.decode
             toy_decode_encode toy_no_space Scenario.store "alice"
             Scenario.alice (Some 600) 0 600 601 "Bearer " Hu
             (or_intror eq_refl)); unfold expiry; simpl; lia.
Defined.

Lemma login_result_session_witness :
  find_one (by_login_id "carol") (user_collection Scenario.store) = None /\
  find_one (by_login_id "alice") (user_collection Scenario.store)
  = Some Scenario.alice /\
  ToyJose.verify "wrong" (hashed_password Scenario.alice) = false /\
  ToyJose.verify "pw" (hashed_password Scenario.alice) = true /\
  fst (login_result ToyJose.encode ToyJose.verify "carol" "pw" 0 Scenario.store)
  = fst (login_result ToyJose.encode ToyJose.verify "alice" "wrong" 0
                      Scenario.store) /\
  exists cookie,
    cookie = "Bearer " ++ Scenario.alice_token /\
    login_result ToyJose.encode ToyJose.verify "alice" "pw" 0 Scenario.store
    = (inr (RedirectResponse "/index" HTTP_302_FOUND,
            SetCookie "access_token" cookie true), Scenario.store) /\
    get_current_user_by_token ToyJose.decode cookie 600 Scenario.store
    = (inr Scenario.alice, Scenario.store) /\
    get_current_user_by_token ToyJose.decode cookie 601 Scenario.store
    = (inl (Http credential_exception), Scenario.store).
Proof.
  assert (H0 : find_one (by_login_id "carol") (user_collection Scenario.store)
               = None) by reflexivity.
  assert (Hu : find_one (by_login_id "alice") (user_collection Scenario.store)
               = Some Scenario.alice) by reflexivity.
  assert (Hw : ToyJose.verify "wrong" (hashed_password Scenario.alice) = false)
    by reflexivity.
  assert (Hp : ToyJose.verify "pw" (hashed_password Scenario.alice) = true)
    by reflexivity.
  split; [exact H0|]. split; [exact Hu|]. split; [exact Hw|].
  split; [exact Hp|].
  destruct (login_result_session ToyJose.encode ToyJose.decode ToyJose.verify
              toy_decode_encode toy_no_space Scenario.store "carol" "pw" 0)
    as [Hcarol _].
  destruct (login_result_session ToyJose.encode ToyJose.decode ToyJose.verify
              toy_decode_encode toy_no_space Scenario.store "alice" "wrong" 0)
    as [_ [Hwrong _]].
  destruct (login_result_session ToyJose.encode ToyJose.decode ToyJose.verify
              toy_decode_encode toy_no_space Scenario.store "alice" "pw" 0)
    as [_ [_ Hgood]].
  split.
  - rewrite (Hcarol H0), (Hwrong _ Hu Hw). reflexivity.
  - destruct (Hgood _ Hu Hp) as [cookie [Hc [Hl [Hin Hout]]]].
    exists cookie. split; [exact Hc|]. split; [exact Hl|]. split.
    + apply Hin. lia.
    + apply Hout. lia.
Defined.

Lemma deleted_account_token_rejected_witness :
  NoDup (map login_id (user_collection Scenario.store)) /\
  find_one (by_login_id "bob") (user_collection Scenario.store)
  = Some Scenario.bob /\
  100 <= expiry (Some 600) 0 /\
  exists s',
    delete_one_user_post ToyJose.decode
      ("Bearer " ++ create_access_token ToyJose.encode
                      (mkClaims (Some "bob") None) (Some 600) 0)
      100 Scenario.store
    = (inr (RedirectResponse "/index" HTTP_302_FOUND,
            DeleteCookie "access_token"), s') /\
    find_one (by_login_id "bob") (user_collection s') = None /\
    find_all (by_owner "bob") (ticket_collection s') = [] /\
    forall later,
      get_current_user_by_token ToyJose.decode
        ("Bearer " ++ create_access_token ToyJose.encode
                        (mkClaims (Some "bob") None) (Some 600) 0)
        later s'
      = (inl (Http credential_exception), s').
Proof.
  assert (Hnd : NoDup (map login_id (user_collection Scenario.store))).
  { simpl. constructor.
    - intros [H|[]]. discriminate H.
    - constructor; [intros [] | constructor]. }
  assert (Hu : find_one (by_login_id "bob") (user_collection Scenario.store)
               = Some Scenario.bob) by reflexivity.
  assert (Ht : 100 <= expiry (Some 600) 0) by (unfold expiry; simpl; lia).
  split; [exact Hnd|]. split; [exact Hu|]. split; [exact Ht|].
  exact (deleted_account_token_rejected ToyJose.encode ToyJose.decode
           toy_decode_encode toy_no_space Scenario.store "bob" Scenario.bob
           (Some 600) 0 100 Hnd Hu Ht).
Defined.

Lemma register_then_login_witness :
  (forall password, ToyJose.verify password (ToyJose.hash password) = true) /\
  ~ login_id_taken (uc_login_id Scenario.alice_form) empty_store /\
  ~ email_taken (uc_email Scenario.alice_form) empty_store /\
  exists cookie,
    login_result ToyJose.encode ToyJose.verify "alice" "pw" 0
                 (mkStore [Scenario.alice] [])
    = (inr (RedirectResponse "/index" HTTP_302_FOUND,
            SetCookie "access_token" cookie true),
       mkStore [Scenario.alice] []) /\
    get_current_user_by_token ToyJose.decode cookie 0
                              (mkStore [Scenario.alice] [])
    = (inr Scenario.alice, mkStore [Scenario.alice] []).
Proof.
  assert (Hv : forall password,
             ToyJose.verify password (ToyJose.hash password) = true)
    by (intros; apply String.eqb_refl).
  assert (Hl : ~ login_id_taken (uc_login_id Scenario.alice_form) empty_store)
    by (intros [u [[] _]]).
  assert (He : ~ email_taken (uc_email Scenario.alice_form) empty_store)
    by (intros [u [[] _]]).
  split; [exact Hv|]. split; [exact Hl|]. split; [exact He|].
  exact (register_then_login ToyJose.encode ToyJose.decode ToyJose.verify
           toy_decode_encode toy_no_space ToyJose.hash Hv
           empty_store Scenario.alice_form 0 Hl He).
Defined.

(** ** Requests that fail *)

(** X14: a request that is answered with an error has changed nothing:
    whenever one of the handlers raises (a validation error of the sign-up
    form, 401, 404 or 409, or an exception of the token library that is
    not caught), the store is the one it started from; and logging in
    never changes the store. *)
Theorem failed_requests_change_nothing :
  forall (jwt_encode : Claims -> string -> string -> string)
         (jwt_decode : string -> string -> string -> Z -> JoseError + Claims)
         (check_password : string -> string -> bool)
         (validate_email : string -> option string)
         (get_hashed_password : string -> string)
         (s : Store) (access_token : string) (now : Z),
    let unchanged {A} (r : (Raised + A) * Store) :=
      forall e, fst r = inl e -> snd r = s in
    (forall form_data,
        unchanged (create_one_user validate_email get_hashed_password
                                   form_data s)) /\
    (forall new_ticket,
        unchanged (create_one_ticket jwt_decode new_ticket access_token now s)) /\
    (forall cancel_date,
        unchanged (cancel_one_ticket_post_confirm jwt_decode cancel_date
                     access_token now s)) /\
    unchanged (cancel_all_tickets_post_confirm jwt_decode access_token now s) /\
    unchanged (delete_one_user_post jwt_decode access_token now s) /\
    (forall username password,
        snd (login_result jwt_encode check_password username password now s)
        = s).
Proof.
  intros jwt_encode jwt_decode check_password validate hash s access_token now
         unchanged.
  subst unchanged. cbv beta.
  pose proof (get_current_user_by_token_store jwt_decode access_token now s)
    as Hs.
  split; [|split; [|split; [|split; [|split]]]].
  - intros form_data e.
    destruct (UserCreate_of_form validate form_data) as [v|new_user] eqn:Hform.
    { unfold create_one_user. now rewrite Hform. }
    destruct (create_one_user_unfold validate hash form_data new_user s Hform)
      as [d Hd].
    rewrite Hd. cbv zeta. rewrite create_user_unfold.
    destruct (find_one (by_login_id _) _); [reflexivity|].
    destruct (find_one (by_email _) _); [reflexivity|].
    cbn [fst snd].
    destruct (welcome_msg_not_duplicate new_user) as [-> ->].
    discriminate.
  - intros new_ticket e. unfold create_one_ticket, bind.
    destruct (get_current_user_by_token jwt_decode access_token now s)
      as [[e0|user] s0]; simpl in Hs; subst s0; [reflexivity|].
    rewrite create_ticket_unfold. cbv zeta.
    destruct (fst (ticket_is_valid _ s)); [discriminate | reflexivity].
  - intros cancel_date e. unfold cancel_one_ticket_post_confirm,
      cancel_one_ticket, bind.
    destruct (get_current_user_by_token jwt_decode access_token now s)
      as [[e0|user] s0]; simpl in Hs; subst s0; [reflexivity|].
    rewrite cancel_ticket_by_departure_date_unfold.
    destruct (find_one _ _); [discriminate | reflexivity].
  - intros e. unfold cancel_all_tickets_post_confirm, bind.
    destruct (get_current_user_by_token jwt_decode access_token now s)
      as [[e0|user] s0]; simpl in Hs; subst s0; [reflexivity|].
    discriminate.
  - intros e. unfold delete_one_user_post, bind.
    destruct (get_current_user_by_token jwt_decode access_token now s)
      as [[e0|user] s0]; simpl in Hs; subst s0; [reflexivity|].
    rewrite delete_one_user_unfold. discriminate.
  - intros username password.
    unfold login_result, login_for_access_token, bind.
    rewrite authenticate_user_unfold.
    destruct (find_one _ _) as [u|]; [|reflexivity].
    destruct (check_password _ _); reflexivity.
Qed.
